(** * Proxmox provider for Traefik: discovery and configuration synthesis

    A shallow embedding of [provider/provider.go] and the properties of its
    scan, synthesis and publication steps.

    Conventions of the embedding.
    - Go strings are byte strings: [string].
    - [map[string]T] is [gmap string T]; the comma-ok lookup [v, ok := m[k]]
      is [map_index], which yields the zero value and [false] on a miss.
    - [uint64] identifiers are [N]; no arithmetic is done on them.
    - [time.Duration] (int64 nanoseconds) is [Z].
    - [for k, v := range m] visits every entry of the map once, in an order
      the Go runtime chooses.  A traversal is a function from the map to the
      list of its entries; it is admissible for a map when that list is a
      permutation of the map's entries ([range_order]).
    - [log.Printf] only writes to the process log; it returns nothing the
      program uses and is left out.
    - A send on the outbound channel appends to the list of payloads sent.
    - One poll cycle is [updateConfiguration]; the loop of
      [loadConfiguration] is embedded over the cases its [select] takes.
      [Provide] and [Stop] (the goroutine and its cancellation function)
      are not embedded. *)

From stdpp Require Import base gmap list strings pretty.

Open Scope string_scope.

(** ** Go primitives *)

(** [v, ok := m[k]] *)
Definition map_index (m : gmap string string) (k : string) : string * bool :=
  match m !! k with
  | Some v => (v, true)
  | None => ("", false)
  end.

(** [s != t] on strings. *)
Definition string_neq (s t : string) : bool := negb (String.eqb s t).

(** [%d] of an unsigned integer: its decimal digits. *)
Definition fmt_d (n : N) : string := pretty n.

(** ** The service model of package [internal]

    Only the fields and constructors that [provider.go] uses. *)

Record IP := mkIP { Address : string }.

Record Service := mkService {
  ID : N;
  Name : string;
  Config : gmap string string;
  IPs : list IP
}.

(** Modelled from the spec: [internal.NewService], whose source is not part of
    the files at hand.  The Service Model Builder is "a pure constructor"
    from the workload's ID, name and directive map; until addresses are
    attached the service has "an empty address list". *)
Definition NewService (id : N) (name : string) (config : gmap string string)
  : Service :=
  {| ID := id; Name := name; Config := config; IPs := [] |}.

(** ** The dynamic configuration of [genconf/dynamic]

    The entry types of the collections that synthesis never writes are kept
    as records over their serialized body. *)

Record Server := mkServer { URL : string }.

Record ServersLoadBalancer := mkLB {
  PassHostHeader : option bool;
  Servers : list Server
}.

Record DynService := mkDynService { LoadBalancer : ServersLoadBalancer }.

Record Router := mkRouter {
  RouterService : string;
  Rule : string;
  Priority : Z
}.

Record Middleware := mkMiddleware { middleware_body : string }.
Record ServersTransport := mkServersTransport { transport_body : string }.
Record TCPRouter := mkTCPRouter { tcp_router_body : string }.
Record TCPService := mkTCPService { tcp_service_body : string }.
Record UDPRouter := mkUDPRouter { udp_router_body : string }.
Record UDPService := mkUDPService { udp_service_body : string }.
Record TLSStore := mkTLSStore { tls_store_body : string }.
Record TLSOptions := mkTLSOptions { tls_options_body : string }.

Record HTTPConfiguration := mkHTTP {
  Routers : gmap string Router;
  Middlewares : gmap string Middleware;
  Services : gmap string DynService;
  ServersTransports : gmap string ServersTransport
}.

Record TCPConfiguration := mkTCP {
  TCPRouters : gmap string TCPRouter;
  TCPServices : gmap string TCPService
}.

Record TLSConfiguration := mkTLS {
  Stores : gmap string TLSStore;
  Options : gmap string TLSOptions
}.

Record UDPConfiguration := mkUDP {
  UDPRouters : gmap string UDPRouter;
  UDPServices : gmap string UDPService
}.

Record Configuration := mkConfiguration {
  HTTP : HTTPConfiguration;
  TCP : TCPConfiguration;
  TLS : TLSConfiguration;
  UDP : UDPConfiguration
}.

(** ** [generateConfiguration] *)

Definition boolPtr (v : bool) : option bool := Some v.

(** The composite literal at the top of [generateConfiguration]. *)
Definition emptyConfiguration : Configuration :=
  {| HTTP := {| Routers := ∅; Middlewares := ∅; Services := ∅;
                ServersTransports := ∅ |};
     TCP := {| TCPRouters := ∅; TCPServices := ∅ |};
     TLS := {| Stores := ∅; Options := ∅ |};
     UDP := {| UDPRouters := ∅; UDPServices := ∅ |} |}.

(** [serviceName := fmt.Sprintf("%s-%d", service.Name, service.ID)] *)
Definition serviceName (service : Service) : string :=
  Name service ++ "-" ++ fmt_d (ID service).

(** [port := "80"; if customPort, exists := ...; exists { port = customPort }] *)
Definition servicePort (service : Service) : string :=
  let port := "80" in
  let '(customPort, exists_) :=
    map_index (Config service) "traefik.http.services.port" in
  if exists_ then customPort else port.

(** The body of [for _, ip := range service.IPs]. *)
Definition addIPServer (service : Service) (servers : list Server) (ip : IP)
  : list Server :=
  if string_neq (Address ip) "" then
    let url := "http://" ++ Address ip ++ ":" ++ servicePort service in
    servers ++ [ {| URL := url |} ]
  else servers.

(** [lb.Servers] after the endpoint step, starting from [[]dynamic.Server{}]. *)
Definition resolveServers (nodeName : string) (service : Service)
  : list Server :=
  let servers := [] in
  if (0 <? length (IPs service))%nat then
    fold_left (addIPServer service) (IPs service) servers
  else
    let url := "http://" ++ Name service ++ "." ++ nodeName ++ ":"
               ++ servicePort service in
    servers ++ [ {| URL := url |} ].

(** [routerRule], the default overridden by the rule directive. *)
Definition routerRule (service : Service) : string :=
  let routerRule := "Host(`" ++ Name service ++ "`)" in
  let '(customRule, exists_) :=
    map_index (Config service) "traefik.http.routers.rule" in
  if exists_ then customRule else routerRule.

Definition setHTTPService (k : string) (v : DynService) (c : Configuration)
  : Configuration :=
  {| HTTP := {| Routers := Routers (HTTP c);
                Middlewares := Middlewares (HTTP c);
                Services := <[k := v]> (Services (HTTP c));
                ServersTransports := ServersTransports (HTTP c) |};
     TCP := TCP c; TLS := TLS c; UDP := UDP c |}.

Definition setHTTPRouter (k : string) (v : Router) (c : Configuration)
  : Configuration :=
  {| HTTP := {| Routers := <[k := v]> (Routers (HTTP c));
                Middlewares := Middlewares (HTTP c);
                Services := Services (HTTP c);
                ServersTransports := ServersTransports (HTTP c) |};
     TCP := TCP c; TLS := TLS c; UDP := UDP c |}.

(** The body of the inner loop, [for _, service := range services]. *)
Definition processService (nodeName : string) (configuration : Configuration)
    (service : Service) : Configuration :=
  let '(enable, exists_) := map_index (Config service) "traefik.enable" in
  if negb exists_ || string_neq enable "true" then configuration
  else
    let serviceName := serviceName service in
    let lb := {| PassHostHeader := boolPtr true;
                 Servers := resolveServers nodeName service |} in
    if (0 <? length (Servers lb))%nat then
      let configuration :=
        setHTTPService serviceName {| LoadBalancer := lb |} configuration in
      setHTTPRouter serviceName
        {| RouterService := serviceName;
           Rule := routerRule service;
           Priority := 1 |} configuration
    else configuration.

(** The body of the outer loop, [for nodeName, services := range servicesMap]. *)
Definition processNode (configuration : Configuration)
    (entry : string * list Service) : Configuration :=
  fold_left (processService entry.1) entry.2 configuration.

(** A traversal of the services map, as [range] performs it. *)
Definition MapRange : Type :=
  gmap string (list Service) → list (string * list Service).

(** The traversal visits every entry of [m] exactly once. *)
Definition range_order (range : MapRange) (m : gmap string (list Service))
  : Prop :=
  range m ≡ₚ map_to_list m.

Definition Time : Type := Z.

Definition generateConfiguration (range : MapRange) (date : Time)
    (servicesMap : gmap string (list Service)) : Configuration :=
  fold_left processNode (range servicesMap) emptyConfiguration.

(** Two traversals used in examples. *)
Definition range_asc : MapRange := map_to_list.
Definition range_desc : MapRange := λ m, reverse (map_to_list m).

(** ** Errors and results *)

Definition Duration : Type := Z.
Definition Second : Duration := 1000000000%Z.

(** Go [error] values, by the call that builds them. *)
Inductive error : Type :=
  | errors_New (text : string)
  | fmt_Errorf_w (text : string) (wrapped : error)
  | fmt_Errorf_node_w (text nodeName : string) (wrapped : error)
  | fmt_Errorf_duration (text : string) (d : Duration).

(** A Go pair [(value, error)] of which exactly one is meaningful. *)
Inductive result (A : Type) : Type :=
  | Ok (a : A)
  | Err (e : error).
Arguments Ok {A} a.
Arguments Err {A} e.

Definition is_Err {A} (r : result A) : Prop :=
  match r with Ok _ => False | Err _ => True end.

(** ** The cluster API client of package [internal]

    The client's methods are network calls whose code is outside
    [provider.go].  A client is represented by the answers the cluster gives
    during one poll cycle: one answer per call and argument.  The values it
    returns are observed by [provider.go] through one method each
    ([GetTraefikMap], [GetIPs]) or one field ([Release]); a value is
    represented by that observation. *)

Record NodeStatus := mkNodeStatus { Node : string }.

Record VirtualMachine := mkVM {
  vm_VMID : N; vm_Name : string; vm_Status : string
}.

Record Container := mkCT {
  ct_VMID : N; ct_Name : string; ct_Status : string
}.

Record ParsedConfig := mkParsedConfig { GetTraefikMap : gmap string string }.

Record ParsedAgentInterfaces := mkParsedAgentInterfaces { GetIPs : list IP }.

Record Version := mkVersion { Release : string }.

Record ProxmoxClient := mkClient {
  GetVersion : result Version;
  GetNodes : result (list NodeStatus);
  GetVirtualMachines : string → result (list VirtualMachine);
  GetContainers : string → result (list Container);
  GetVMConfig : string → N → result ParsedConfig;
  GetContainerConfig : string → N → result ParsedConfig;
  GetVMNetworkInterfaces : string → N → result ParsedAgentInterfaces
}.

(** ** Scanning *)

Definition getIPsOfService (client : ProxmoxClient) (nodeName : string)
    (vmID : N) : result (list IP) :=
  match GetVMNetworkInterfaces client nodeName vmID with
  | Err err => Err (fmt_Errorf_w "error getting network interfaces: %w" err)
  | Ok interfaces => Ok (GetIPs interfaces)
  end.

(** [service.IPs = ips] *)
Definition setIPs (service : Service) (ips : list IP) : Service :=
  {| ID := ID service; Name := Name service; Config := Config service;
     IPs := ips |}.

(** What both scan loops do with a running workload once its configuration
    has been fetched. *)
Definition buildService (client : ProxmoxClient) (nodeName : string)
    (id : N) (name : string) (config : ParsedConfig) : Service :=
  let traefikConfig := GetTraefikMap config in
  let service := NewService id name traefikConfig in
  match getIPsOfService client nodeName id with
  | Ok ips => setIPs service ips
  | Err _ => service
  end.

(** The body of [for _, vm := range vms]. *)
Definition scanVM (client : ProxmoxClient) (nodeName : string)
    (services : list Service) (vm : VirtualMachine) : list Service :=
  if String.eqb (vm_Status vm) "running" then
    match GetVMConfig client nodeName (vm_VMID vm) with
    | Err _ => services
    | Ok config =>
        services
        ++ [buildService client nodeName (vm_VMID vm) (vm_Name vm) config]
    end
  else services.

(** The body of [for _, ct := range cts]. *)
Definition scanCT (client : ProxmoxClient) (nodeName : string)
    (services : list Service) (ct : Container) : list Service :=
  if String.eqb (ct_Status ct) "running" then
    match GetContainerConfig client nodeName (ct_VMID ct) with
    | Err _ => services
    | Ok config =>
        services
        ++ [buildService client nodeName (ct_VMID ct) (ct_Name ct) config]
    end
  else services.

Definition scanServices (client : ProxmoxClient) (nodeName : string)
  : result (list Service) :=
  match GetVirtualMachines client nodeName with
  | Err err =>
      Err (fmt_Errorf_node_w "error scanning VMs on node %s: %w" nodeName err)
  | Ok vms =>
      let services := fold_left (scanVM client nodeName) vms [] in
      match GetContainers client nodeName with
      | Err err =>
          Err (fmt_Errorf_node_w "error scanning containers on node %s: %w"
                 nodeName err)
      | Ok cts => Ok (fold_left (scanCT client nodeName) cts services)
      end
  end.

(** The body of [for _, nodeStatus := range nodes]. *)
Definition scanNode (client : ProxmoxClient)
    (servicesMap : gmap string (list Service)) (nodeStatus : NodeStatus)
  : gmap string (list Service) :=
  match scanServices client (Node nodeStatus) with
  | Err _ => servicesMap
  | Ok services => <[Node nodeStatus := services]> servicesMap
  end.

Definition getServiceMap (client : ProxmoxClient)
  : result (gmap string (list Service)) :=
  let servicesMap := ∅ in
  match GetNodes client with
  | Err err => Err (fmt_Errorf_w "error scanning nodes: %w" err)
  | Ok nodes => Ok (fold_left (scanNode client) nodes servicesMap)
  end.

(** ** The provider *)

Record Config_ := mkConfig {
  PollInterval : string;
  ApiEndpoint : string;
  ApiTokenId : string;
  ApiToken : string;
  ApiLogging : string;
  ApiValidateSSL : string
}.

Record ParserConfig := mkParserConfig {
  pc_ApiEndpoint : string;
  pc_TokenId : string;
  pc_Token : string;
  pc_LogLevel : string;
  pc_ValidateSSL : bool
}.

Record Provider := mkProvider {
  name : string;
  pollInterval : Duration;
  client : ProxmoxClient
}.

Record JSONPayload := mkJSONPayload { payload : Configuration }.

(** What [New] takes from outside the repository: [time.ParseDuration] of the
    Go library and the client constructor of package [internal]. *)
Record Env := mkEnv {
  ParseDuration : string → result Duration;
  NewProxmoxClient : string → string → string → bool → string → ProxmoxClient
}.

Definition CreateConfig : Config_ :=
  {| PollInterval := "30s"; ApiEndpoint := ""; ApiTokenId := "";
     ApiToken := ""; ApiLogging := "info"; ApiValidateSSL := "true" |}.

(** [config] is a pointer: [None] is [nil].  [New] dereferences it only after
    [validateConfig] has refused [nil], so the branch of [New] for a [nil]
    that passed validation is never taken. *)
Definition validateConfig (config : option Config_) : option error :=
  match config with
  | None => Some (errors_New "configuration cannot be nil")
  | Some config =>
      if String.eqb (PollInterval config) "" then
        Some (errors_New "poll interval must be set")
      else if String.eqb (ApiEndpoint config) "" then
        Some (errors_New "API endpoint must be set")
      else if String.eqb (ApiTokenId config) "" then
        Some (errors_New "API token ID must be set")
      else if String.eqb (ApiToken config) "" then
        Some (errors_New "API token must be set")
      else None
  end.

Definition newParserConfig (apiEndpoint tokenID token : string)
  : result ParserConfig :=
  if String.eqb apiEndpoint "" || String.eqb tokenID ""
     || String.eqb token "" then
    Err (errors_New "missing mandatory values: apiEndpoint, tokenID or token")
  else
    Ok {| pc_ApiEndpoint := apiEndpoint; pc_TokenId := tokenID;
          pc_Token := token; pc_LogLevel := "info"; pc_ValidateSSL := true |}.

Definition newClient (env : Env) (pc : ParserConfig) : ProxmoxClient :=
  NewProxmoxClient env (pc_ApiEndpoint pc) (pc_TokenId pc) (pc_Token pc)
    (pc_ValidateSSL pc) (pc_LogLevel pc).

Definition logVersion (client : ProxmoxClient) : option error :=
  match GetVersion client with
  | Err err => Some err
  | Ok _ => None
  end.

Definition New (env : Env) (config : option Config_) (name : string)
  : result Provider :=
  match validateConfig config, config with
  | Some err, _ => Err (fmt_Errorf_w "invalid configuration: %w" err)
  | None, None => Err (errors_New "nil pointer dereference")
  | None, Some config =>
      match ParseDuration env (PollInterval config) with
      | Err err => Err (fmt_Errorf_w "invalid poll interval: %w" err)
      | Ok pi =>
          if (pi <? 5 * Second)%Z then
            Err (fmt_Errorf_duration
                   "poll interval must be at least 5 seconds, got %v" pi)
          else
            match newParserConfig (ApiEndpoint config) (ApiTokenId config)
                    (ApiToken config) with
            | Err err => Err (fmt_Errorf_w "invalid parser config: %w" err)
            | Ok pc =>
                let pc :=
                  {| pc_ApiEndpoint := pc_ApiEndpoint pc;
                     pc_TokenId := pc_TokenId pc;
                     pc_Token := pc_Token pc;
                     pc_LogLevel := ApiLogging config;
                     pc_ValidateSSL :=
                       String.eqb (ApiValidateSSL config) "true" |} in
                let client := newClient env pc in
                match logVersion client with
                | Some err =>
                    Err (fmt_Errorf_w "failed to get Proxmox version: %w" err)
                | None =>
                    Ok {| name := name; pollInterval := pi;
                          client := client |}
                end
            end
      end
  end.

(** One poll cycle.  [cfgChan] is the list of payloads sent so far; the
    result is the returned error ([None] is [nil]) and the channel after the
    call.  [now] is the value of [time.Now()]. *)
Definition updateConfiguration (p : Provider) (range : MapRange) (now : Time)
    (cfgChan : list JSONPayload) : option error * list JSONPayload :=
  match getServiceMap (client p) with
  | Err err =>
      (Some (fmt_Errorf_w "error getting service map: %w" err), cfgChan)
  | Ok servicesMap =>
      let configuration := generateConfiguration range now servicesMap in
      (None, (cfgChan ++ [ {| payload := configuration |} ])%list)
  end.

(** ** Vocabulary of the statements *)

(** The enablement gate is open for [service]. *)
Definition enabled (service : Service) : Prop :=
  Config service !! "traefik.enable" = Some "true".

(** [service] is a service of node [nodeName] in the snapshot. *)
Definition in_snapshot (servicesMap : gmap string (list Service))
    (nodeName : string) (service : Service) : Prop :=
  ∃ services, servicesMap !! nodeName = Some services ∧ service ∈ services.

(** The services of a traversal, in the order the two loops reach them. *)
Definition visits (order : list (string * list Service))
  : list (string * Service) :=
  order ≫= λ entry, (λ service, (entry.1, service)) <$> entry.2.

(** The two loops as one, over [visits]. *)
Definition processVisit (configuration : Configuration)
    (visit : string * Service) : Configuration :=
  processService visit.1 configuration visit.2.

(** [s] contains the separator of the key ["<name>-<id>"]. *)
Fixpoint has_dash (s : string) : bool :=
  match s with
  | EmptyString => false
  | String c s' => Ascii.eqb c (Ascii.ascii_of_nat 45) || has_dash s'
  end.

(** The endpoint step leaves at least one server, so the emission guard
    [len(lb.Servers) > 0] passes for an enabled [service]. *)
Definition emitted (nodeName : string) (service : Service) : Prop :=
  enabled service ∧ resolveServers nodeName service ≠ [].

(** The entries stored for an emitted service. *)
Definition backendOf (nodeName : string) (service : Service) : DynService :=
  {| LoadBalancer := {| PassHostHeader := Some true;
                        Servers := resolveServers nodeName service |} |}.

Definition routerOf (service : Service) : Router :=
  {| RouterService := serviceName service;
     Rule := routerRule service;
     Priority := 1 |}.

#[global] Instance Server_eq_dec : EqDecision Server.
Proof. solve_decision. Defined.

#[global] Instance emitted_dec nodeName service :
  Decision (emitted nodeName service).
Proof. unfold emitted, enabled. apply _. Defined.


(** The cluster lists on [nodeName] a running workload with this ID and
    name, as a virtual machine or as a container. *)
Definition running_workload (client : ProxmoxClient) (nodeName : string)
    (id : N) (name : string) : Prop :=
  (∃ vms vm, GetVirtualMachines client nodeName = Ok vms ∧ vm ∈ vms
     ∧ vm_Status vm = "running" ∧ vm_VMID vm = id ∧ vm_Name vm = name)
  ∨ (∃ cts ct, GetContainers client nodeName = Ok cts ∧ ct ∈ cts
       ∧ ct_Status ct = "running" ∧ ct_VMID ct = id ∧ ct_Name ct = name).

(** The part of a configuration outside the HTTP routers and services. *)
Definition frame (c : Configuration) :=
  (Middlewares (HTTP c), ServersTransports (HTTP c), TCP c, TLS c, UDP c).

(** ** Sample snapshots

    The first is the end-to-end scenario of the documentation. *)

Definition web100 : Service :=
  {| ID := 100; Name := "web";
     Config := {[ "traefik.enable" := "true";
                  "traefik.http.services.port" := "8080" ]};
     IPs := [ {| Address := "10.0.0.5" |} ] |}.

(** The same workload with a truthy-looking flag that is not ["true"]. *)
Definition web_enable_1 : Service :=
  {| ID := 100; Name := "web";
     Config := {[ "traefik.enable" := "1" ]};
     IPs := [ {| Address := "10.0.0.5" |} ] |}.

Definition snap_enable_1 : gmap string (list Service) :=
  {[ "pve1" := [web_enable_1] ]}.

(** The documented workload with the flag set to ["false"]. *)
Definition web_enable_false : Service :=
  {| ID := 100; Name := "web";
     Config := {[ "traefik.enable" := "false" ]};
     IPs := [ {| Address := "10.0.0.5" |} ] |}.

Definition snap_web100 : gmap string (list Service) :=
  {[ "pve1" := [web100] ]}.

(** An enabled workload whose only reported address is the empty string. *)
Definition web_blank_ip : Service :=
  {| ID := 100; Name := "web";
     Config := {[ "traefik.enable" := "true" ]};
     IPs := [ {| Address := "" |} ] |}.

Definition snap_blank_ip : gmap string (list Service) :=
  {[ "pve1" := [web_blank_ip] ]}.

(** An enabled workload with no address and a rule directive. *)
Definition api7 : Service :=
  {| ID := 7; Name := "api";
     Config := {[ "traefik.enable" := "true";
                  "traefik.http.routers.rule" := "Host(`x.com`)" ]};
     IPs := [] |}.

Definition snap_api7 : gmap string (list Service) :=
  {[ "pve2" := [api7] ]}.



(** The two-node cluster of the documented workload and a second one. *)
Definition snap_two_nodes : gmap string (list Service) :=
  {[ "pve1" := [web100]; "pve2" := [api7] ]}.

(** ** A sample cluster

    Node [pve1] answers: a running VM 100 (the documented workload), a
    stopped VM 101 and a running container 200 whose network interfaces
    cannot be read.  Node [pve2] does not answer. *)

Definition connection_refused {A} : result A :=
  Err (errors_New "connection refused").

Definition cache200 : Service :=
  {| ID := 200; Name := "cache";
     Config := {[ "traefik.enable" := "true" ]};
     IPs := [] |}.

Definition sample_client : ProxmoxClient :=
  {| GetVersion := Ok {| Release := "8.2" |};
     GetNodes := Ok [ {| Node := "pve1" |}; {| Node := "pve2" |} ];
     GetVirtualMachines := λ nodeName,
       if String.eqb nodeName "pve1" then
         Ok [ {| vm_VMID := 100; vm_Name := "web"; vm_Status := "running" |};
              {| vm_VMID := 101; vm_Name := "db"; vm_Status := "stopped" |} ]
       else connection_refused;
     GetContainers := λ nodeName,
       if String.eqb nodeName "pve1" then
         Ok [ {| ct_VMID := 200; ct_Name := "cache";
                 ct_Status := "running" |} ]
       else connection_refused;
     GetVMConfig := λ nodeName vmID,
       if String.eqb nodeName "pve1" && (vmID =? 100)%N then
         Ok {| GetTraefikMap := Config web100 |}
       else connection_refused;
     GetContainerConfig := λ nodeName vmID,
       if String.eqb nodeName "pve1" && (vmID =? 200)%N then
         Ok {| GetTraefikMap := Config cache200 |}
       else connection_refused;
     GetVMNetworkInterfaces := λ nodeName vmID,
       if String.eqb nodeName "pve1" && (vmID =? 100)%N then
         Ok {| GetIPs := IPs web100 |}
       else connection_refused |}.

(** The same cluster when the node listing itself fails. *)
Definition offline_client : ProxmoxClient :=
  {| GetVersion := GetVersion sample_client;
     GetNodes := connection_refused;
     GetVirtualMachines := GetVirtualMachines sample_client;
     GetContainers := GetContainers sample_client;
     GetVMConfig := GetVMConfig sample_client;
     GetContainerConfig := GetContainerConfig sample_client;
     GetVMNetworkInterfaces := GetVMNetworkInterfaces sample_client |}.

Definition sample_provider (client : ProxmoxClient) : Provider :=
  {| name := "proxmox"; pollInterval := (30 * Second)%Z; client := client |}.

Definition snap_sample : gmap string (list Service) :=
  {[ "pve1" := [web100; cache200] ]}.

(** ** A sample environment

    [time.ParseDuration] on the two interval strings used below: ["1s"] is
    one second and ["30s"] thirty; the stand-in refuses everything else. *)

Definition sample_env : Env :=
  {| ParseDuration := λ s,
       if String.eqb s "1s" then Ok Second
       else if String.eqb s "30s" then Ok (30 * Second)%Z
       else Err (errors_New "time: invalid duration");
     NewProxmoxClient := λ _ _ _ _ _, sample_client |}.

Definition config_with_interval (interval : string) : Config_ :=
  {| PollInterval := interval;
     ApiEndpoint := "https://proxmox.example.com";
     ApiTokenId := "root@pam!traefik";
     ApiToken := "your-api-token";
     ApiLogging := "info";
     ApiValidateSSL := "true" |}.

(** One node that lists the same workload twice, with different addresses. *)
Definition web100_moved : Service :=
  {| ID := 100; Name := "web";
     Config := {[ "traefik.enable" := "true" ]};
     IPs := [ {| Address := "10.0.0.9" |} ] |}.

Definition snap_relisted : gmap string (list Service) :=
  {[ "pve1" := [web100; web100_moved] ]}.

#[global] Instance is_Err_dec {A} (r : result A) : Decision (is_Err r).
Proof. destruct r; simpl; apply _. Defined.

(** The configuration of the running workload [id]/[name] of [nodeName] can
    be fetched, whether it is listed as a virtual machine or as a
    container. *)
Definition fetched_config (client : ProxmoxClient) (nodeName : string)
    (id : N) (name : string) (config : ParsedConfig) : Prop :=
  (∃ vms vm, GetVirtualMachines client nodeName = Ok vms ∧ vm ∈ vms
     ∧ vm_Status vm = "running" ∧ vm_VMID vm = id ∧ vm_Name vm = name
     ∧ GetVMConfig client nodeName id = Ok config)
  ∨ (∃ cts ct, GetContainers client nodeName = Ok cts ∧ ct ∈ cts
       ∧ ct_Status ct = "running" ∧ ct_VMID ct = id ∧ ct_Name ct = name
       ∧ GetContainerConfig client nodeName id = Ok config).

(** The addresses the scan attaches to workload [id] of [nodeName]. *)
Definition scanned_addresses (client : ProxmoxClient) (nodeName : string)
    (id : N) : list IP :=
  match GetVMNetworkInterfaces client nodeName id with
  | Ok interfaces => GetIPs interfaces
  | Err _ => []
  end.

(** A cluster whose node listing works while no node answers. *)
Definition nodes_down_client : ProxmoxClient :=
  {| GetVersion := GetVersion sample_client;
     GetNodes := GetNodes sample_client;
     GetVirtualMachines := λ _, connection_refused;
     GetContainers := λ _, connection_refused;
     GetVMConfig := λ _ _, connection_refused;
     GetContainerConfig := λ _ _, connection_refused;
     GetVMNetworkInterfaces := λ _ _, connection_refused |}.

(** [config.ApiEndpoint = ...; config.ApiTokenId = ...; config.ApiToken = ...]
    on a configuration, as the plugin loader does with the user's values. *)
Definition withCredentials (config : Config_)
    (apiEndpoint apiTokenId apiToken : string) : Config_ :=
  {| PollInterval := PollInterval config;
     ApiEndpoint := apiEndpoint;
     ApiTokenId := apiTokenId;
     ApiToken := apiToken;
     ApiLogging := ApiLogging config;
     ApiValidateSSL := ApiValidateSSL config |}.

(** ** The poll loop

    [loadConfiguration] runs one cycle, then loops on a [select] between
    the ticker and the cancellation of the context.  Which case a [select]
    takes is the Go runtime's choice; a run of the loop is described by the
    cases taken, in order.  The client handle is the same in every cycle
    and what it answers is the state of the cluster at that cycle: as a
    client is represented by its answers, a cycle comes with the answers of
    the cluster, the traversal [range] performs and the reading of
    [time.Now()].  The goroutine of [Provide], its [recover] and the
    release of the ticker are not part of the embedding. *)

Record Cycle := mkCycle {
  cycle_answers : ProxmoxClient;
  cycle_range : MapRange;
  cycle_now : Time
}.

Inductive Selected : Type :=
  | TickerC (cycle : Cycle)
  | CtxDone.

(** The provider during a cycle. *)
Definition atCycle (p : Provider) (cycle : Cycle) : Provider :=
  {| name := name p; pollInterval := pollInterval p;
     client := cycle_answers cycle |}.

(** [if err := p.updateConfiguration(ctx, cfgChan); err != nil { log }]:
    the error is logged and dropped. *)
Definition runCycle (p : Provider) (cycle : Cycle)
    (cfgChan : list JSONPayload) : list JSONPayload :=
  (updateConfiguration (atCycle p cycle) (cycle_range cycle)
     (cycle_now cycle) cfgChan).2.

(** The [for { select { ... } }] loop over the cases taken; an exhausted
    list is a loop waiting in [select]. *)
Fixpoint selectLoop (p : Provider) (selected : list Selected)
    (cfgChan : list JSONPayload) : list JSONPayload :=
  match selected with
  | [] => cfgChan
  | TickerC cycle :: selected' =>
      selectLoop p selected' (runCycle p cycle cfgChan)
  | CtxDone :: _ => cfgChan
  end.

Definition loadConfiguration (p : Provider) (initial : Cycle)
    (selected : list Selected) (cfgChan : list JSONPayload)
  : list JSONPayload :=
  selectLoop p selected (runCycle p initial cfgChan).



Definition sample_cycle (answers : ProxmoxClient) : Cycle :=
  {| cycle_answers := answers; cycle_range := range_asc; cycle_now := 0%Z |}.

(** Two services that differ at most in directives that synthesis does not
    read: same ID, name and addresses, and the same answers of the
    directive map for the enable flag, the port and the rule. *)
Definition same_routing_input (s1 s2 : Service) : Prop :=
  ID s1 = ID s2 ∧ Name s1 = Name s2 ∧ IPs s1 = IPs s2
  ∧ Config s1 !! "traefik.enable" = Config s2 !! "traefik.enable"
  ∧ Config s1 !! "traefik.http.services.port"
    = Config s2 !! "traefik.http.services.port"
  ∧ Config s1 !! "traefik.http.routers.rule"
    = Config s2 !! "traefik.http.routers.rule".

(** The documented workload with two directives that synthesis ignores. *)
Definition web100_extra : Service :=
  {| ID := 100; Name := "web";
     Config := {[ "traefik.enable" := "true";
                  "traefik.http.services.port" := "8080";
                  "traefik.http.routers.entrypoints" := "websecure";
                  "traefik.http.routers.priority" := "42" ]};
     IPs := [ {| Address := "10.0.0.5" |} ] |}.

(** * Properties *)

(** ** Go primitives *)

Lemma string_neq_false s t : string_neq s t = false ↔ s = t.
Proof.
  unfold string_neq. rewrite negb_false_iff. apply String.eqb_eq.
Qed.

Lemma string_neq_true s t : string_neq s t = true ↔ s ≠ t.
Proof.
  unfold string_neq. rewrite negb_true_iff. apply String.eqb_neq.
Qed.

Lemma servicePort_default service :
  servicePort service
  = default "80" (Config service !! "traefik.http.services.port").
Proof.
  unfold servicePort, map_index.
  by destruct (Config service !! "traefik.http.services.port").
Qed.

Lemma routerRule_default service :
  routerRule service
  = default ("Host(`" ++ Name service ++ "`)")
      (Config service !! "traefik.http.routers.rule").
Proof.
  unfold routerRule, map_index.
  by destruct (Config service !! "traefik.http.routers.rule").
Qed.

(** ** The key ["<name>-<id>"] determines the name and the ID *)

Lemma pretty_N_go_no_dash x s :
  has_dash s = false → has_dash (pretty_N_go x s) = false.
Proof.
  revert s. induction (N.lt_wf_0 x) as [x _ IH]; intros s Hs.
  destruct (decide (x = 0)%N) as [->|Hx].
  - by rewrite pretty_N_go_0.
  - rewrite pretty_N_go_step by lia.
    apply IH; [apply N.div_lt; lia|].
    simpl. rewrite Hs, orb_false_r.
    unfold pretty_N_char. by repeat case_match.
Qed.

Lemma fmt_d_no_dash n : has_dash (fmt_d n) = false.
Proof.
  unfold fmt_d, pretty, pretty_N. case_decide; [done|].
  by apply pretty_N_go_no_dash.
Qed.

Lemma has_dash_app s t : has_dash (s ++ t) = has_dash s || has_dash t.
Proof. induction s as [|c s IH]; simpl; [done|]. by rewrite IH, orb_assoc. Qed.

Lemma dash_split_inj a b d1 d2 :
  has_dash d1 = false → has_dash d2 = false →
  a ++ "-" ++ d1 = b ++ "-" ++ d2 → a = b ∧ d1 = d2.
Proof.
  intros H1 H2. revert b. induction a as [|c a IH]; intros [|c' b] Heq;
    simpl in Heq.
  - by injection Heq.
  - injection Heq as Hc Hd. change ("" +:+ d1) with d1 in Hd. subst d1.
    rewrite has_dash_app in H1. simpl in H1.
    by rewrite orb_true_r in H1.
  - injection Heq as Hc Hd. change ("" +:+ d2) with d2 in Hd. subst d2.
    rewrite has_dash_app in H2. simpl in H2.
    by rewrite orb_true_r in H2.
  - injection Heq as Hc Heq. subst c'.
    destruct (IH _ Heq) as [-> ->]. done.
Qed.

Lemma serviceName_inj s1 s2 :
  serviceName s1 = serviceName s2 → Name s1 = Name s2 ∧ ID s1 = ID s2.
Proof.
  unfold serviceName. intros Heq.
  apply dash_split_inj in Heq as [? Hid]; auto using fmt_d_no_dash.
  split; [done|]. by apply (inj pretty).
Qed.

(** ** One step of synthesis *)

Lemma gate_open_iff service :
  (let '(enable, exists_) := map_index (Config service) "traefik.enable" in
   negb exists_ || string_neq enable "true") = false
  ↔ enabled service.
Proof.
  unfold enabled, map_index.
  destruct (Config service !! "traefik.enable") as [v|]; simpl.
  - rewrite string_neq_false. split; [by intros ->|by intros [= ->]].
  - split; discriminate.
Qed.

Lemma length_pos_iff {A} (l : list A) : (0 <? length l)%nat = true ↔ l ≠ [].
Proof. destruct l; simpl; split; (done || lia || discriminate). Qed.

Lemma processService_emitted nodeName c service :
  emitted nodeName service →
  processService nodeName c service
  = setHTTPRouter (serviceName service) (routerOf service)
      (setHTTPService (serviceName service) (backendOf nodeName service) c).
Proof.
  intros [Hen Hne]. unfold processService.
  apply gate_open_iff in Hen.
  destruct (map_index (Config service) "traefik.enable") as [enable ex].
  rewrite Hen. simpl.
  apply length_pos_iff in Hne. by rewrite Hne.
Qed.

Lemma processService_skipped nodeName c service :
  ¬ emitted nodeName service → processService nodeName c service = c.
Proof.
  intros Hno. unfold processService.
  pose proof (gate_open_iff service) as Hgate.
  destruct (map_index (Config service) "traefik.enable") as [enable ex].
  destruct (negb ex || string_neq enable "true") eqn:Hg; [done|].
  simpl.
  destruct (0 <? length (resolveServers nodeName service))%nat eqn:Hlen;
    [|done].
  destruct Hno. split; [by apply Hgate|by apply length_pos_iff].
Qed.

Lemma processVisit_Services c visit k :
  Services (HTTP (processVisit c visit)) !! k
  = if decide (emitted visit.1 visit.2 ∧ serviceName visit.2 = k)
    then Some (backendOf visit.1 visit.2)
    else Services (HTTP c) !! k.
Proof.
  unfold processVisit. destruct (decide (emitted visit.1 visit.2)) as [He|He].
  - rewrite processService_emitted by done. simpl.
    case_decide as Hk.
    + destruct Hk as [_ <-]. by rewrite lookup_insert_eq.
    + rewrite lookup_insert_ne; [done|]. intros ?. by apply Hk.
  - rewrite processService_skipped by done.
    case_decide as Hk; [by destruct Hk|done].
Qed.

Lemma processVisit_Routers c visit k :
  Routers (HTTP (processVisit c visit)) !! k
  = if decide (emitted visit.1 visit.2 ∧ serviceName visit.2 = k)
    then Some (routerOf visit.2)
    else Routers (HTTP c) !! k.
Proof.
  unfold processVisit. destruct (decide (emitted visit.1 visit.2)) as [He|He].
  - rewrite processService_emitted by done. simpl.
    case_decide as Hk.
    + destruct Hk as [_ <-]. by rewrite lookup_insert_eq.
    + rewrite lookup_insert_ne; [done|]. intros ?. by apply Hk.
  - rewrite processService_skipped by done.
    case_decide as Hk; [by destruct Hk|done].
Qed.

(** Everything but the HTTP routers and services is carried through. *)
Lemma processVisit_frame c visit : frame (processVisit c visit) = frame c.
Proof.
  unfold processVisit. destruct (decide (emitted visit.1 visit.2)) as [He|He].
  - by rewrite processService_emitted.
  - by rewrite processService_skipped.
Qed.

(** ** The two loops *)

Lemma fold_processService_visits nodeName services c :
  fold_left (processService nodeName) services c
  = fold_left processVisit ((λ service, (nodeName, service)) <$> services) c.
Proof.
  revert c. induction services as [|service services IH]; intros c; simpl;
    [done|apply IH].
Qed.

Lemma fold_processNode_visits order c :
  fold_left processNode order c = fold_left processVisit (visits order) c.
Proof.
  revert c. induction order as [|[nodeName services] order IH]; intros c;
    [done|].
  unfold visits. rewrite bind_cons. simpl.
  rewrite fold_left_app, IH. unfold processNode. simpl.
  by rewrite fold_processService_visits.
Qed.

Lemma generateConfiguration_visits range date servicesMap :
  generateConfiguration range date servicesMap
  = fold_left processVisit (visits (range servicesMap)) emptyConfiguration.
Proof. apply fold_processNode_visits. Qed.

Lemma elem_of_visits order nodeName service :
  (nodeName, service) ∈ visits order
  ↔ ∃ services, (nodeName, services) ∈ order ∧ service ∈ services.
Proof.
  unfold visits. rewrite list_elem_of_bind. split.
  - intros [[n services] [Hin Ho]]. simpl in Hin.
    apply list_elem_of_fmap in Hin as [s' [[= -> ->] Hs']]. eauto.
  - intros [services [Ho Hs]]. exists (nodeName, services). split; [|done].
    simpl. apply list_elem_of_fmap. eauto.
Qed.

Lemma elem_of_range_visits range servicesMap nodeName service :
  range_order range servicesMap →
  (nodeName, service) ∈ visits (range servicesMap)
  ↔ in_snapshot servicesMap nodeName service.
Proof.
  unfold range_order, in_snapshot. intros Hperm.
  rewrite elem_of_visits. setoid_rewrite Hperm.
  by setoid_rewrite elem_of_map_to_list.
Qed.

(** Every entry of the result was in the start configuration or was stored
    for an emitted visit with that key. *)
Lemma fold_Services_sound l c k v :
  Services (HTTP (fold_left processVisit l c)) !! k = Some v →
  Services (HTTP c) !! k = Some v
  ∨ ∃ nodeName service, (nodeName, service) ∈ l ∧ emitted nodeName service
      ∧ serviceName service = k ∧ v = backendOf nodeName service.
Proof.
  revert c. induction l as [|[n s] l IH]; intros c; simpl; [by left|].
  intros Hv. apply IH in Hv as [Hv|(n'&s'&Hin&?&?&?)].
  - rewrite processVisit_Services in Hv. case_decide as Hk; [|by left].
    destruct Hk as [? ?]. simpl in *. injection Hv as <-.
    right. exists n, s. split_and!; try done. apply list_elem_of_here.
  - right. exists n', s'. split_and!; try done.
    by apply list_elem_of_further.
Qed.

Lemma fold_Routers_sound l c k r :
  Routers (HTTP (fold_left processVisit l c)) !! k = Some r →
  Routers (HTTP c) !! k = Some r
  ∨ ∃ nodeName service, (nodeName, service) ∈ l ∧ emitted nodeName service
      ∧ serviceName service = k ∧ r = routerOf service.
Proof.
  revert c. induction l as [|[n s] l IH]; intros c; simpl; [by left|].
  intros Hr. apply IH in Hr as [Hr|(n'&s'&Hin&?&?&?)].
  - rewrite processVisit_Routers in Hr. case_decide as Hk; [|by left].
    destruct Hk as [? ?]. simpl in *. injection Hr as <-.
    right. exists n, s. split_and!; try done. apply list_elem_of_here.
  - right. exists n', s'. split_and!; try done.
    by apply list_elem_of_further.
Qed.

(** No step removes an entry. *)
Lemma fold_entries_kept l c k :
  (is_Some (Services (HTTP c) !! k) →
   is_Some (Services (HTTP (fold_left processVisit l c)) !! k))
  ∧ (is_Some (Routers (HTTP c) !! k) →
     is_Some (Routers (HTTP (fold_left processVisit l c)) !! k)).
Proof.
  revert c. induction l as [|visit l IH]; intros c; simpl; [done|].
  destruct (IH (processVisit c visit)) as [IHs IHr].
  split; intros Hc; [apply IHs|apply IHr].
  - rewrite processVisit_Services. by case_decide.
  - rewrite processVisit_Routers. by case_decide.
Qed.

(** Every emitted visit has its two entries in the result. *)
Lemma fold_entries_complete l c nodeName service :
  (nodeName, service) ∈ l → emitted nodeName service →
  is_Some (Services (HTTP (fold_left processVisit l c))
             !! serviceName service)
  ∧ is_Some (Routers (HTTP (fold_left processVisit l c))
               !! serviceName service).
Proof.
  intros Hin Hem. revert c.
  induction l as [|visit l IH]; intros c; [by apply elem_of_nil in Hin|].
  apply elem_of_cons in Hin as [<-|Hin]; [|by apply IH].
  simpl.
  destruct (fold_entries_kept l (processVisit c (nodeName, service))
              (serviceName service)) as [Hs Hr].
  split; [apply Hs|apply Hr].
  - rewrite processVisit_Services. simpl. by rewrite decide_True.
  - rewrite processVisit_Routers. simpl. by rewrite decide_True.
Qed.

Lemma fold_frame l c : frame (fold_left processVisit l c) = frame c.
Proof.
  revert c. induction l as [|visit l IH]; intros c; simpl; [done|].
  by rewrite IH, processVisit_frame.
Qed.

(** ** The synthesized configuration as a whole *)

Lemma generate_Services_sound range date servicesMap k v :
  range_order range servicesMap →
  Services (HTTP (generateConfiguration range date servicesMap)) !! k = Some v →
  ∃ nodeName service, in_snapshot servicesMap nodeName service
    ∧ emitted nodeName service ∧ serviceName service = k
    ∧ v = backendOf nodeName service.
Proof.
  intros Hrange. rewrite generateConfiguration_visits.
  intros [Hv|(n&s&Hin&?&?&?)]%fold_Services_sound; [done|].
  exists n, s. split_and!; try done. by apply (elem_of_range_visits range).
Qed.

Lemma generate_Routers_sound range date servicesMap k r :
  range_order range servicesMap →
  Routers (HTTP (generateConfiguration range date servicesMap)) !! k = Some r →
  ∃ nodeName service, in_snapshot servicesMap nodeName service
    ∧ emitted nodeName service ∧ serviceName service = k
    ∧ r = routerOf service.
Proof.
  intros Hrange. rewrite generateConfiguration_visits.
  intros [Hr|(n&s&Hin&?&?&?)]%fold_Routers_sound; [done|].
  exists n, s. split_and!; try done. by apply (elem_of_range_visits range).
Qed.

Lemma generate_complete range date servicesMap nodeName service :
  range_order range servicesMap →
  in_snapshot servicesMap nodeName service → emitted nodeName service →
  is_Some (Services (HTTP (generateConfiguration range date servicesMap))
             !! serviceName service)
  ∧ is_Some (Routers (HTTP (generateConfiguration range date servicesMap))
               !! serviceName service).
Proof.
  intros Hrange Hin Hem. rewrite generateConfiguration_visits.
  apply (fold_entries_complete _ _ nodeName); [|done].
  by apply (elem_of_range_visits range).
Qed.

(** When the workload's ID is unique in the snapshot, the entries under its
    key are the ones stored for it. *)
Lemma generate_exact range date servicesMap nodeName service :
  range_order range servicesMap →
  in_snapshot servicesMap nodeName service → emitted nodeName service →
  (∀ n' s', in_snapshot servicesMap n' s' → ID s' = ID service →
            n' = nodeName ∧ s' = service) →
  Services (HTTP (generateConfiguration range date servicesMap))
    !! serviceName service = Some (backendOf nodeName service)
  ∧ Routers (HTTP (generateConfiguration range date servicesMap))
      !! serviceName service = Some (routerOf service).
Proof.
  intros Hrange Hin Hem Huniq.
  destruct (generate_complete range date _ _ _ Hrange Hin Hem)
    as [[v Hv] [r Hr]].
  rewrite Hv, Hr.
  apply generate_Services_sound in Hv as (n1&s1&Hin1&_&Hk1&->); [|done].
  apply generate_Routers_sound in Hr as (n2&s2&Hin2&_&Hk2&->); [|done].
  apply serviceName_inj in Hk1 as [_ Hid1].
  apply serviceName_inj in Hk2 as [_ Hid2].
  destruct (Huniq _ _ Hin1 Hid1) as [-> ->].
  destruct (Huniq _ _ Hin2 Hid2) as [_ ->]. done.
Qed.

(** ** The documented scenario *)

Example web100_services :
  Services (HTTP (generateConfiguration range_asc 0%Z {[ "pve1" := [web100] ]}))
    !! "web-100"
  = Some {| LoadBalancer := {| PassHostHeader := Some true;
       Servers := [ {| URL := "http://10.0.0.5:8080" |} ] |} |}.
Proof. vm_compute. reflexivity. Qed.

Example web100_router :
  Routers (HTTP (generateConfiguration range_asc 0%Z {[ "pve1" := [web100] ]}))
    !! "web-100"
  = Some {| RouterService := "web-100"; Rule := "Host(`web`)"; Priority := 1 |}.
Proof. vm_compute. reflexivity. Qed.

Example web_enable_false_empty :
  HTTP (generateConfiguration range_asc 0%Z {[ "pve1" := [web_enable_false] ]})
  = HTTP emptyConfiguration.
Proof. vm_compute. reflexivity. Qed.

(** ** Admissible traversals *)

Lemma range_asc_order servicesMap : range_order range_asc servicesMap.
Proof. unfold range_order, range_asc. reflexivity. Qed.

Lemma range_desc_order servicesMap : range_order range_desc servicesMap.
Proof. unfold range_order, range_desc. apply reverse_Permutation. Qed.

(** ** The enablement gate *)

Lemma in_snapshot_singleton nodeName services n s :
  in_snapshot {[ nodeName := services ]} n s → n = nodeName ∧ s ∈ services.
Proof.
  intros (l & Hl & Hs). apply lookup_singleton_Some in Hl as [-> ->]. done.
Qed.

Lemma singleton_snapshot_unique nodeName service n' s' :
  in_snapshot {[ nodeName := [service] ]} n' s' → ID s' = ID service →
  n' = nodeName ∧ s' = service.
Proof.
  intros [-> Hs']%in_snapshot_singleton _.
  by apply list_elem_of_singleton in Hs'.
Qed.

(** Membership of the first service of a node in a concrete snapshot. *)
Ltac first_of_node :=
  lazymatch goal with
  | |- in_snapshot _ _ ?service =>
      eexists (service :: _);
      split; [vm_compute; reflexivity|apply list_elem_of_here]
  end.

(** C1.  A router or a backend-service entry is in the synthesized
    configuration only under the key of a service of the snapshot whose
    directive map has [traefik.enable] equal to the string ["true"].  For a
    service whose flag is absent or has any other value the loop body leaves
    the configuration as it was, and, when no other workload of the snapshot
    has its ID, neither a router nor a backend-service entry is stored under
    its key. *)
Theorem C1_enablement_gate range date servicesMap :
  range_order range servicesMap →
  let out := HTTP (generateConfiguration range date servicesMap) in
  (∀ k, is_Some (Routers out !! k) ∨ is_Some (Services out !! k) →
     ∃ nodeName service,
       in_snapshot servicesMap nodeName service
       ∧ serviceName service = k
       ∧ Config service !! "traefik.enable" = Some "true")
  ∧ (∀ nodeName service,
       in_snapshot servicesMap nodeName service →
       Config service !! "traefik.enable" ≠ Some "true" →
       (∀ c, processService nodeName c service = c)
       ∧ ((∀ n' s', in_snapshot servicesMap n' s' → ID s' = ID service →
                    s' = service) →
          Routers out !! serviceName service = None
          ∧ Services out !! serviceName service = None)).
Proof.
  intros Hrange out.
  assert (Honly : ∀ k,
    is_Some (Routers out !! k) ∨ is_Some (Services out !! k) →
    ∃ nodeName service, in_snapshot servicesMap nodeName service
      ∧ serviceName service = k
      ∧ Config service !! "traefik.enable" = Some "true").
  { intros k [[r Hr]|[v Hv]].
    - apply generate_Routers_sound in Hr as (n&s&?&[? _]&?&_); [|done].
      by exists n, s.
    - apply generate_Services_sound in Hv as (n&s&?&[? _]&?&_); [|done].
      by exists n, s. }
  split; [exact Honly|].
  intros nodeName service Hin Hoff. split.
  - intros c. apply processService_skipped. by intros [? _].
  - intros Huniq.
    assert (Hnone : ¬ (is_Some (Routers out !! serviceName service)
                       ∨ is_Some (Services out !! serviceName service))).
    { intros (n'&s'&Hin'&Hkey&Hon)%Honly.
      apply serviceName_inj in Hkey as [_ Hid].
      apply (Huniq _ _ Hin') in Hid as ->. done. }
    split; apply eq_None_not_Some; tauto.
Qed.

Lemma C1_enablement_gate_witness :
  range_order range_asc snap_enable_1
  ∧ in_snapshot snap_enable_1 "pve1" web_enable_1
  ∧ Config web_enable_1 !! "traefik.enable" ≠ Some "true"
  ∧ Routers (HTTP (generateConfiguration range_asc 0%Z snap_enable_1))
      !! "web-100" = None
  ∧ Services (HTTP (generateConfiguration range_asc 0%Z snap_enable_1))
      !! "web-100" = None.
Proof.
  assert (Hr : range_order range_asc snap_enable_1)
    by apply range_asc_order.
  assert (Hin : in_snapshot snap_enable_1 "pve1" web_enable_1).
  { first_of_node. }
  assert (Hoff : Config web_enable_1 !! "traefik.enable" ≠ Some "true").
  { vm_compute. discriminate. }
  split; [exact Hr|]. split; [exact Hin|]. split; [exact Hoff|].
  destruct (C1_enablement_gate range_asc 0%Z snap_enable_1 Hr) as [_ Hgate].
  destruct (Hgate "pve1" web_enable_1 Hin Hoff) as [_ Hnone].
  apply Hnone. intros n' s' Hin' Hid.
  by destruct (singleton_snapshot_unique _ _ _ _ Hin' Hid).
Defined.

(** ** Endpoint resolution *)

Lemma fold_addIPServer service ips servers :
  fold_left (addIPServer service) ips servers
  = (servers
     ++ ((λ ip, {| URL := "http://" ++ Address ip ++ ":"
                          ++ servicePort service |})
         <$> filter (λ ip, Address ip ≠ "") ips))%list.
Proof.
  revert servers. induction ips as [|ip ips IH]; intros servers; simpl.
  - by rewrite app_nil_r.
  - rewrite IH. unfold addIPServer.
    destruct (string_neq (Address ip) "") eqn:Hip.
    + apply string_neq_true in Hip.
      rewrite filter_cons_True by done. simpl. by rewrite <- app_assoc.
    + apply string_neq_false in Hip.
      rewrite filter_cons_False; [done|]. by intros ?.
Qed.

Lemma resolveServers_addresses nodeName service :
  IPs service ≠ [] →
  resolveServers nodeName service
  = (λ ip, {| URL := "http://" ++ Address ip ++ ":" ++ servicePort service |})
    <$> filter (λ ip, Address ip ≠ "") (IPs service).
Proof.
  intros Hips. unfold resolveServers.
  apply length_pos_iff in Hips. rewrite Hips.
  by rewrite fold_addIPServer.
Qed.

Lemma resolveServers_fallback nodeName service :
  IPs service = [] →
  resolveServers nodeName service
  = [ {| URL := "http://" ++ Name service ++ "." ++ nodeName ++ ":"
                ++ servicePort service |} ].
Proof. intros Hips. unfold resolveServers. by rewrite Hips. Qed.

Lemma resolveServers_nonempty nodeName service :
  resolveServers nodeName service ≠ []
  ↔ IPs service = [] ∨ ∃ ip, ip ∈ IPs service ∧ Address ip ≠ "".
Proof.
  destruct (decide (IPs service = [])) as [Hips|Hips].
  - rewrite resolveServers_fallback by done. split; [by left|done].
  - rewrite resolveServers_addresses by done. split.
    + intros Hne. right.
      destruct (filter (λ ip, Address ip ≠ "") (IPs service))
        as [|ip l] eqn:Hf; [done|].
      exists ip. apply and_comm.
      apply (list_elem_of_filter (λ ip, Address ip ≠ "")).
      rewrite Hf. apply list_elem_of_here.
    + intros [?|(ip & Hin & Hip)]; [done|].
      intros Hnil%fmap_nil_inv.
      assert (Hf : ip ∈ filter (λ ip, Address ip ≠ "") (IPs service))
        by by apply list_elem_of_filter.
      rewrite Hnil in Hf. by apply elem_of_nil in Hf.
Qed.

(** C2.  For an enabled service of the snapshot, the server list built by
    the endpoint step is: when the address list is not empty, one
    [http://<address>:<port>] per non-empty address, in order, and nothing
    for an empty address; when the address list is empty, the single
    fallback [http://<name>.<nodeName>:<port>]; the port is the value of
    [traefik.http.services.port] when present and ["80"] otherwise.  When
    that list is not empty the loop body stores a backend with exactly these
    servers under the service's key, and the synthesized configuration
    holds that backend when the workload's ID is unique in the snapshot. *)
Theorem C2_endpoints range date servicesMap nodeName service :
  range_order range servicesMap →
  in_snapshot servicesMap nodeName service →
  Config service !! "traefik.enable" = Some "true" →
  let port :=
    match Config service !! "traefik.http.services.port" with
    | Some customPort => customPort
    | None => "80"
    end in
  let endpoints :=
    match IPs service with
    | [] => [ {| URL := "http://" ++ Name service ++ "." ++ nodeName ++ ":"
                        ++ port |} ]
    | _ => (λ ip, {| URL := "http://" ++ Address ip ++ ":" ++ port |})
           <$> filter (λ ip, Address ip ≠ "") (IPs service)
    end in
  let backend :=
    {| LoadBalancer := {| PassHostHeader := Some true;
                          Servers := endpoints |} |} in
  resolveServers nodeName service = endpoints
  ∧ (IPs service = [] → length endpoints = 1)
  ∧ (IPs service ≠ [] →
     length endpoints
     = length (filter (λ ip, Address ip ≠ "") (IPs service)))
  ∧ (endpoints ≠ [] →
     ∀ c, Services (HTTP (processService nodeName c service))
            !! serviceName service = Some backend)
  ∧ (endpoints ≠ [] →
     (∀ n' s', in_snapshot servicesMap n' s' → ID s' = ID service →
               n' = nodeName ∧ s' = service) →
     Services (HTTP (generateConfiguration range date servicesMap))
       !! serviceName service = Some backend).
Proof.
  intros Hrange Hin Hen port endpoints backend.
  assert (Hport : servicePort service = port).
  { rewrite servicePort_default. subst port.
    by destruct (Config service !! "traefik.http.services.port"). }
  assert (Hres : resolveServers nodeName service = endpoints).
  { subst endpoints. destruct (IPs service) as [|ip ips] eqn:Hips.
    - rewrite resolveServers_fallback by done. by rewrite Hport.
    - rewrite resolveServers_addresses by (by rewrite Hips).
      by rewrite Hport, Hips. }
  assert (Hback : backendOf nodeName service = backend).
  { unfold backendOf. by rewrite Hres. }
  split_and!.
  - done.
  - intros Hips. subst endpoints. by rewrite Hips.
  - intros Hips. subst endpoints.
    destruct (IPs service); [done|]. by rewrite length_fmap.
  - intros Hne c. rewrite <- Hres in Hne.
    rewrite processService_emitted by done. simpl.
    by rewrite lookup_insert_eq, Hback.
  - intros Hne Huniq. rewrite <- Hres in Hne. rewrite <- Hback.
    by apply (generate_exact range date _ nodeName).
Qed.

Lemma C2_endpoints_witness :
  range_order range_asc snap_web100
  ∧ in_snapshot snap_web100 "pve1" web100
  ∧ Config web100 !! "traefik.enable" = Some "true"
  ∧ Services (HTTP (generateConfiguration range_asc 0%Z snap_web100))
      !! "web-100"
    = Some {| LoadBalancer := {| PassHostHeader := Some true;
         Servers := [ {| URL := "http://10.0.0.5:8080" |} ] |} |}.
Proof.
  assert (Hr : range_order range_asc snap_web100) by apply range_asc_order.
  assert (Hin : in_snapshot snap_web100 "pve1" web100).
  { first_of_node. }
  assert (Hen : Config web100 !! "traefik.enable" = Some "true")
    by (vm_compute; reflexivity).
  split; [exact Hr|]. split; [exact Hin|]. split; [exact Hen|].
  destruct (C2_endpoints range_asc 0%Z snap_web100 "pve1" web100 Hr Hin Hen)
    as (_ & _ & _ & _ & Hout).
  assert (Huniq : ∀ n' s', in_snapshot snap_web100 n' s' →
            ID s' = ID web100 → n' = "pve1" ∧ s' = web100)
    by apply singleton_snapshot_unique.
  assert (Hne : resolveServers "pve1" web100 ≠ [])
    by (vm_compute; discriminate).
  exact (Hout Hne Huniq).
Defined.

(** ** Emission *)

(** The two maps always have the same keys: the keys of the emitted
    services of the snapshot. *)
Lemma generate_keys range date servicesMap k :
  range_order range servicesMap →
  let out := HTTP (generateConfiguration range date servicesMap) in
  (is_Some (Services out !! k)
   ↔ ∃ nodeName service, in_snapshot servicesMap nodeName service
       ∧ emitted nodeName service ∧ serviceName service = k)
  ∧ (is_Some (Routers out !! k)
     ↔ ∃ nodeName service, in_snapshot servicesMap nodeName service
         ∧ emitted nodeName service ∧ serviceName service = k).
Proof.
  intros Hrange out. split; split.
  - intros [v (n&s&?&?&?&_)%generate_Services_sound]; [|done].
    by exists n, s.
  - intros (n&s&Hin&Hem&<-).
    by apply (generate_complete range date _ _ _ Hrange Hin Hem).
  - intros [r (n&s&?&?&?&_)%generate_Routers_sound]; [|done].
    by exists n, s.
  - intros (n&s&Hin&Hem&<-).
    by apply (generate_complete range date _ _ _ Hrange Hin Hem).
Qed.

(** C3, as an enabled service with only empty addresses forces it.  An
    enabled service of the snapshot produces at least one endpoint exactly
    when its address list is empty (the fallback endpoint) or holds a
    non-empty address.  The router and the backend-service entry are
    emitted if and only if the endpoint list is non-empty; both are stored
    under the key ["<name>-<id>"], and in the synthesized configuration a
    key has a router if and only if it has a backend-service entry, which
    is the case exactly for the keys of the enabled services with a
    non-empty endpoint list. *)
Theorem C3_emission range date servicesMap nodeName service :
  range_order range servicesMap →
  in_snapshot servicesMap nodeName service →
  Config service !! "traefik.enable" = Some "true" →
  let out := HTTP (generateConfiguration range date servicesMap) in
  let key := Name service ++ "-" ++ fmt_d (ID service) in
  let endpoints := resolveServers nodeName service in
  (endpoints ≠ []
   ↔ IPs service = [] ∨ ∃ ip, ip ∈ IPs service ∧ Address ip ≠ "")
  ∧ (endpoints ≠ [] →
     is_Some (Routers out !! key) ∧ is_Some (Services out !! key)
     ∧ ∀ c, Routers (HTTP (processService nodeName c service))
            = <[key := {| RouterService := key; Rule := routerRule service;
                          Priority := 1 |}]> (Routers (HTTP c))
          ∧ Services (HTTP (processService nodeName c service))
            = <[key := {| LoadBalancer :=
                            {| PassHostHeader := Some true;
                               Servers := endpoints |} |}]>
                (Services (HTTP c)))
  ∧ (endpoints = [] → ∀ c, processService nodeName c service = c)
  ∧ (∀ k, (is_Some (Routers out !! k) ↔ is_Some (Services out !! k))
          ∧ (is_Some (Services out !! k)
             ↔ ∃ n' s', in_snapshot servicesMap n' s'
                 ∧ Config s' !! "traefik.enable" = Some "true"
                 ∧ resolveServers n' s' ≠ []
                 ∧ Name s' ++ "-" ++ fmt_d (ID s') = k)).
Proof.
  intros Hrange Hin Hen out key endpoints. split_and!.
  - apply resolveServers_nonempty.
  - intros Hne.
    assert (Hem : emitted nodeName service) by done.
    destruct (generate_complete range date _ _ _ Hrange Hin Hem) as [Hs Hr].
    split_and!; [done|done|].
    intros c. by rewrite processService_emitted.
  - intros Hnil c. apply processService_skipped. by intros [_ ?].
  - intros k.
    destruct (generate_keys range date servicesMap k Hrange) as [Hs Hr].
    split; [etrans; [exact Hr|symmetry; exact Hs]|].
    etrans; [exact Hs|]. unfold emitted, enabled, serviceName.
    split; intros (n'&s'&?&?); exists n', s'; tauto.
Qed.

Lemma C3_emission_witness :
  range_order range_asc snap_api7
  ∧ in_snapshot snap_api7 "pve2" api7
  ∧ Config api7 !! "traefik.enable" = Some "true"
  ∧ is_Some (Routers (HTTP (generateConfiguration range_asc 0%Z snap_api7))
               !! "api-7")
  ∧ is_Some (Services (HTTP (generateConfiguration range_asc 0%Z snap_api7))
               !! "api-7").
Proof.
  assert (Hr : range_order range_asc snap_api7) by apply range_asc_order.
  assert (Hin : in_snapshot snap_api7 "pve2" api7).
  { first_of_node. }
  assert (Hen : Config api7 !! "traefik.enable" = Some "true")
    by (vm_compute; reflexivity).
  split; [exact Hr|]. split; [exact Hin|]. split; [exact Hen|].
  destruct (C3_emission range_asc 0%Z snap_api7 "pve2" api7 Hr Hin Hen)
    as (_ & Hout & _).
  assert (Hne : resolveServers "pve2" api7 ≠ [])
    by (vm_compute; discriminate).
  destruct (Hout Hne) as (Hrouter & Hservice & _).
  split; [exact Hrouter|exact Hservice].
Defined.

(** C3 as stated fails: an enabled service whose address list holds only
    the empty address produces no endpoint and is not emitted. *)
Lemma C3_counterexample :
  in_snapshot snap_blank_ip "pve1" web_blank_ip
  ∧ Config web_blank_ip !! "traefik.enable" = Some "true"
  ∧ resolveServers "pve1" web_blank_ip = []
  ∧ Routers (HTTP (generateConfiguration range_asc 0%Z snap_blank_ip)) = ∅
  ∧ Services (HTTP (generateConfiguration range_asc 0%Z snap_blank_ip)) = ∅.
Proof.
  split_and!.
  - first_of_node.
  - vm_compute. reflexivity.
  - vm_compute. reflexivity.
  - vm_compute. reflexivity.
  - vm_compute. reflexivity.
Qed.

(** ** The route rule *)

(** C4.  For an enabled service of the snapshot that is emitted, the router
    stored under its key by the loop body has as rule the value of
    [traefik.http.routers.rule] when the directive map has that key, as it
    is, and otherwise [Host(`<name>`)]; the synthesized configuration holds
    that router when the workload's ID is unique in the snapshot, and every
    router of the synthesized configuration has the rule so determined of an
    enabled service with its key. *)
Theorem C4_router_rule range date servicesMap nodeName service :
  range_order range servicesMap →
  in_snapshot servicesMap nodeName service →
  Config service !! "traefik.enable" = Some "true" →
  resolveServers nodeName service ≠ [] →
  let out := HTTP (generateConfiguration range date servicesMap) in
  let rule_of (s : Service) :=
    match Config s !! "traefik.http.routers.rule" with
    | Some customRule => customRule
    | None => "Host(`" ++ Name s ++ "`)"
    end in
  let router :=
    {| RouterService := serviceName service; Rule := rule_of service;
       Priority := 1 |} in
  (∀ c, Routers (HTTP (processService nodeName c service))
          !! serviceName service = Some router)
  ∧ ((∀ n' s', in_snapshot servicesMap n' s' → ID s' = ID service →
               n' = nodeName ∧ s' = service) →
     Routers out !! serviceName service = Some router)
  ∧ (∀ k r, Routers out !! k = Some r →
       ∃ n' s', in_snapshot servicesMap n' s'
         ∧ Config s' !! "traefik.enable" = Some "true"
         ∧ serviceName s' = k ∧ Rule r = rule_of s').
Proof.
  intros Hrange Hin Hen Hne out rule_of router.
  assert (Hrule : ∀ s, routerRule s = rule_of s).
  { intros s. rewrite routerRule_default. subst rule_of. simpl.
    by destruct (Config s !! "traefik.http.routers.rule"). }
  assert (Hrouter : routerOf service = router).
  { unfold routerOf. by rewrite Hrule. }
  assert (Hem : emitted nodeName service) by done.
  split_and!.
  - intros c. rewrite processService_emitted by done. simpl.
    by rewrite lookup_insert_eq, Hrouter.
  - intros Huniq. rewrite <- Hrouter.
    by apply (generate_exact range date _ nodeName).
  - intros k r (n'&s'&?&[? _]&?&->)%generate_Routers_sound; [|done].
    exists n', s'. split_and!; try done. simpl. apply Hrule.
Qed.

Lemma C4_router_rule_witness :
  range_order range_asc snap_api7
  ∧ in_snapshot snap_api7 "pve2" api7
  ∧ Config api7 !! "traefik.enable" = Some "true"
  ∧ resolveServers "pve2" api7 ≠ []
  ∧ Routers (HTTP (generateConfiguration range_asc 0%Z snap_api7)) !! "api-7"
    = Some {| RouterService := "api-7"; Rule := "Host(`x.com`)";
              Priority := 1 |}.
Proof.
  assert (Hr : range_order range_asc snap_api7) by apply range_asc_order.
  assert (Hin : in_snapshot snap_api7 "pve2" api7).
  { first_of_node. }
  assert (Hen : Config api7 !! "traefik.enable" = Some "true")
    by (vm_compute; reflexivity).
  assert (Hne : resolveServers "pve2" api7 ≠ [])
    by (vm_compute; discriminate).
  split; [exact Hr|]. split; [exact Hin|]. split; [exact Hen|].
  split; [exact Hne|].
  destruct (C4_router_rule range_asc 0%Z snap_api7 "pve2" api7
              Hr Hin Hen Hne) as (_ & Hout & _).
  assert (Huniq : ∀ n' s', in_snapshot snap_api7 n' s' →
            ID s' = ID api7 → n' = "pve2" ∧ s' = api7)
    by apply singleton_snapshot_unique.
  exact (Hout Huniq).
Defined.

(** ** What synthesis leaves empty *)

(** C9.  Whatever the snapshot (and the traversal and the timestamp), the
    TCP routers and services, the UDP routers and services, the TLS stores
    and options and the HTTP middlewares and serversTransports of the
    synthesized configuration are empty maps; synthesis writes the HTTP
    routers and the HTTP services only. *)
Theorem C9_other_sections_empty range date servicesMap :
  let out := generateConfiguration range date servicesMap in
  TCPRouters (TCP out) = ∅ ∧ TCPServices (TCP out) = ∅
  ∧ UDPRouters (UDP out) = ∅ ∧ UDPServices (UDP out) = ∅
  ∧ Stores (TLS out) = ∅ ∧ Options (TLS out) = ∅
  ∧ Middlewares (HTTP out) = ∅ ∧ ServersTransports (HTTP out) = ∅.
Proof.
  intros out.
  assert (Hframe : frame out = frame emptyConfiguration).
  { subst out. rewrite generateConfiguration_visits. apply fold_frame. }
  unfold frame in Hframe. simpl in Hframe.
  injection Hframe as -> -> -> -> ->. done.
Qed.

Example two_nodes_populated :
  dom (Routers (HTTP (generateConfiguration range_asc 0%Z snap_two_nodes)))
  = {[ "web-100"; "api-7" ]}
  ∧ dom (Services (HTTP (generateConfiguration range_asc 0%Z snap_two_nodes)))
    = {[ "web-100"; "api-7" ]}.
Proof. split; vm_compute; reflexivity. Qed.

(** ** Independence of the traversal *)












(** ** Scanning a node *)

Section node_scan.
  Context (client : ProxmoxClient) (nodeName : string).

Lemma scanVM_acc services vm :
  scanVM client nodeName services vm
  = (services ++ scanVM client nodeName [] vm)%list.
Proof.
  unfold scanVM. destruct (String.eqb (vm_Status vm) "running").
  - destruct (GetVMConfig client nodeName (vm_VMID vm)); simpl;
      by rewrite ?app_nil_r.
  - by rewrite app_nil_r.
Qed.

Lemma scanCT_acc services ct :
  scanCT client nodeName services ct
  = (services ++ scanCT client nodeName [] ct)%list.
Proof.
  unfold scanCT. destruct (String.eqb (ct_Status ct) "running").
  - destruct (GetContainerConfig client nodeName (ct_VMID ct)); simpl;
      by rewrite ?app_nil_r.
  - by rewrite app_nil_r.
Qed.

Lemma fold_scanVM vms services :
  fold_left (scanVM client nodeName) vms services
  = (services ++ (vms ≫= scanVM client nodeName []))%list.
Proof.
  revert services. induction vms as [|vm vms IH]; intros services.
  - simpl. by rewrite app_nil_r.
  - rewrite bind_cons. cbn [fold_left].
    rewrite IH, (scanVM_acc services). by rewrite app_assoc.
Qed.

Lemma fold_scanCT cts services :
  fold_left (scanCT client nodeName) cts services
  = (services ++ (cts ≫= scanCT client nodeName []))%list.
Proof.
  revert services. induction cts as [|ct cts IH]; intros services.
  - simpl. by rewrite app_nil_r.
  - rewrite bind_cons. cbn [fold_left].
    rewrite IH, (scanCT_acc services). by rewrite app_assoc.
Qed.

(** The scan of a node whose two listings succeed: every workload
    contributes on its own, VMs first. *)
Lemma scanServices_Ok vms cts :
  GetVirtualMachines client nodeName = Ok vms →
  GetContainers client nodeName = Ok cts →
  scanServices client nodeName
  = Ok ((vms ≫= scanVM client nodeName [])
        ++ (cts ≫= scanCT client nodeName []))%list.
Proof.
  intros Hvms Hcts. unfold scanServices. rewrite Hvms, Hcts.
  by rewrite fold_scanCT, fold_scanVM.
Qed.

Lemma scanServices_Ok_inv services :
  scanServices client nodeName = Ok services →
  ∃ vms cts, GetVirtualMachines client nodeName = Ok vms
    ∧ GetContainers client nodeName = Ok cts
    ∧ services = ((vms ≫= scanVM client nodeName [])
                  ++ (cts ≫= scanCT client nodeName []))%list.
Proof.
  intros Hscan.
  destruct (GetVirtualMachines client nodeName) as [vms|e] eqn:Hvms;
    [|unfold scanServices in Hscan; by rewrite Hvms in Hscan].
  destruct (GetContainers client nodeName) as [cts|e] eqn:Hcts;
    [|unfold scanServices in Hscan; by rewrite Hvms, Hcts in Hscan].
  exists vms, cts. split_and!; try done.
  rewrite (scanServices_Ok vms cts) in Hscan by done. congruence.
Qed.

Lemma scanServices_Err :
  is_Err (scanServices client nodeName)
  ↔ is_Err (GetVirtualMachines client nodeName)
    ∨ is_Err (GetContainers client nodeName).
Proof.
  unfold scanServices.
  destruct (GetVirtualMachines client nodeName);
    destruct (GetContainers client nodeName); simpl; tauto.
Qed.

Lemma buildService_identity id name config :
  ID (buildService client nodeName id name config) = id
  ∧ Name (buildService client nodeName id name config) = name
  ∧ Config (buildService client nodeName id name config)
    = GetTraefikMap config.
Proof.
  unfold buildService. by destruct (getIPsOfService client nodeName id).
Qed.

Lemma scanVM_running vm s :
  s ∈ scanVM client nodeName [] vm →
  vm_Status vm = "running" ∧ ID s = vm_VMID vm ∧ Name s = vm_Name vm.
Proof.
  unfold scanVM.
  destruct (String.eqb (vm_Status vm) "running") eqn:Hst;
    [|by intros ?%elem_of_nil].
  apply String.eqb_eq in Hst.
  destruct (GetVMConfig client nodeName (vm_VMID vm)) as [config|];
    [|by intros ?%elem_of_nil].
  simpl. intros ->%list_elem_of_singleton.
  destruct (buildService_identity (vm_VMID vm) (vm_Name vm)
              config) as (? & ? & _). done.
Qed.

Lemma scanCT_running ct s :
  s ∈ scanCT client nodeName [] ct →
  ct_Status ct = "running" ∧ ID s = ct_VMID ct ∧ Name s = ct_Name ct.
Proof.
  unfold scanCT.
  destruct (String.eqb (ct_Status ct) "running") eqn:Hst;
    [|by intros ?%elem_of_nil].
  apply String.eqb_eq in Hst.
  destruct (GetContainerConfig client nodeName (ct_VMID ct)) as [config|];
    [|by intros ?%elem_of_nil].
  simpl. intros ->%list_elem_of_singleton.
  destruct (buildService_identity (ct_VMID ct) (ct_Name ct)
              config) as (? & ? & _). done.
Qed.

Lemma scanServices_running services s :
  scanServices client nodeName = Ok services → s ∈ services →
  running_workload client nodeName (ID s) (Name s).
Proof.
  intros (vms & cts & Hvms & Hcts & ->)%scanServices_Ok_inv.
  intros [Hs|Hs]%elem_of_app.
  - apply list_elem_of_bind in Hs as (vm & Hs & Hvm).
    apply scanVM_running in Hs as (? & ? & ?).
    left. by exists vms, vm.
  - apply list_elem_of_bind in Hs as (ct & Hs & Hct).
    apply scanCT_running in Hs as (? & ? & ?).
    right. by exists cts, ct.
Qed.

End node_scan.

(** ** The services map *)

Lemma scanNode_lookup client servicesMap nodeStatus nodeName :
  scanNode client servicesMap nodeStatus !! nodeName
  = match scanServices client nodeName with
    | Ok services =>
        if decide (nodeName = Node nodeStatus) then Some services
        else servicesMap !! nodeName
    | Err _ => servicesMap !! nodeName
    end.
Proof.
  unfold scanNode. destruct (decide (nodeName = Node nodeStatus)) as [->|Hne].
  - destruct (scanServices client (Node nodeStatus)); [|done].
    by rewrite lookup_insert_eq.
  - destruct (scanServices client (Node nodeStatus));
      [rewrite lookup_insert_ne by done|];
      by destruct (scanServices client nodeName).
Qed.

Lemma fold_scanNode_lookup client nodes servicesMap nodeName :
  fold_left (scanNode client) nodes servicesMap !! nodeName
  = match scanServices client nodeName with
    | Ok services =>
        if decide (nodeName ∈ Node <$> nodes) then Some services
        else servicesMap !! nodeName
    | Err _ => servicesMap !! nodeName
    end.
Proof.
  revert servicesMap.
  induction nodes as [|nodeStatus nodes IH]; intros servicesMap.
  - cbn [fold_left]. destruct (scanServices client nodeName); [|done].
    case_decide as Hin; [by apply elem_of_nil in Hin|done].
  - cbn [fold_left]. rewrite IH, scanNode_lookup, fmap_cons.
    destruct (scanServices client nodeName) as [services|e]; [|done].
    repeat case_decide; try done.
    + exfalso. rewrite elem_of_cons in *. tauto.
    + exfalso. rewrite elem_of_cons in *. tauto.
    + exfalso. rewrite elem_of_cons in *. tauto.
Qed.

Lemma getServiceMap_Ok client nodes :
  GetNodes client = Ok nodes →
  ∃ servicesMap, getServiceMap client = Ok servicesMap
    ∧ ∀ nodeName,
        servicesMap !! nodeName
        = match scanServices client nodeName with
          | Ok services =>
              if decide (nodeName ∈ Node <$> nodes) then Some services
              else None
          | Err _ => None
          end.
Proof.
  intros Hnodes. unfold getServiceMap. rewrite Hnodes.
  eexists. split; [done|]. intros nodeName.
  by rewrite fold_scanNode_lookup, lookup_empty.
Qed.

Lemma getServiceMap_in_snapshot client servicesMap nodeName s :
  getServiceMap client = Ok servicesMap →
  in_snapshot servicesMap nodeName s →
  running_workload client nodeName (ID s) (Name s).
Proof.
  intros Hmap (services & Hl & Hs).
  destruct (GetNodes client) as [nodes|e] eqn:Hnodes;
    [|unfold getServiceMap in Hmap; by rewrite Hnodes in Hmap].
  destruct (getServiceMap_Ok client nodes Hnodes) as (m & Hm & Hlookup).
  assert (m = servicesMap) as -> by congruence.
  rewrite Hlookup in Hl.
  destruct (scanServices client nodeName) as [services'|] eqn:Hscan;
    [|done].
  case_decide; [|done]. injection Hl as ->.
  by apply (scanServices_running client nodeName services).
Qed.

(** ** Sample cluster, evaluated *)

Example sample_scan_pve1 :
  scanServices sample_client "pve1" = Ok [web100; cache200].
Proof. vm_compute. reflexivity. Qed.

Example sample_scan_pve2 : is_Err (scanServices sample_client "pve2").
Proof. vm_compute. exact I. Qed.

Lemma sample_getServiceMap : getServiceMap sample_client = Ok snap_sample.
Proof. vm_compute. reflexivity. Qed.

(** ** Only running workloads are discovered *)

(** C5.  A workload whose status is not the string ["running"] adds nothing
    to the services of the node scan; every service that the scan builds
    has the ID and the name of a workload listed as running on that node;
    so every service of the services map, and every router and
    backend-service entry of the configuration synthesized from it, has the
    ID and name, respectively the key, of a running workload. *)
Theorem C5_only_running client range date servicesMap :
  getServiceMap client = Ok servicesMap →
  range_order range servicesMap →
  let out := HTTP (generateConfiguration range date servicesMap) in
  (∀ nodeName services vm, vm_Status vm ≠ "running" →
     scanVM client nodeName services vm = services)
  ∧ (∀ nodeName services ct, ct_Status ct ≠ "running" →
       scanCT client nodeName services ct = services)
  ∧ (∀ nodeName services s,
       scanServices client nodeName = Ok services → s ∈ services →
       running_workload client nodeName (ID s) (Name s))
  ∧ (∀ nodeName s, in_snapshot servicesMap nodeName s →
       running_workload client nodeName (ID s) (Name s))
  ∧ (∀ k, is_Some (Routers out !! k) ∨ is_Some (Services out !! k) →
       ∃ nodeName id name, running_workload client nodeName id name
         ∧ k = name ++ "-" ++ fmt_d id).
Proof.
  intros Hmap Hrange out. split_and!.
  - intros nodeName services vm Hst. unfold scanVM.
    apply String.eqb_neq in Hst. by rewrite Hst.
  - intros nodeName services ct Hst. unfold scanCT.
    apply String.eqb_neq in Hst. by rewrite Hst.
  - apply scanServices_running.
  - intros nodeName s. by apply getServiceMap_in_snapshot.
  - intros k Hk.
    assert (∃ nodeName s, in_snapshot servicesMap nodeName s
                          ∧ serviceName s = k) as (n & s & Hin & <-).
    { destruct Hk as [[r Hr]|[v Hv]].
      - apply generate_Routers_sound in Hr as (n&s&?&_&?&_); [|done].
        by exists n, s.
      - apply generate_Services_sound in Hv as (n&s&?&_&?&_); [|done].
        by exists n, s. }
    exists n, (ID s), (Name s). split; [|done].
    by apply (getServiceMap_in_snapshot client servicesMap).
Qed.

Lemma C5_only_running_witness :
  getServiceMap sample_client = Ok snap_sample
  ∧ range_order range_asc snap_sample
  ∧ ∀ k, is_Some (Routers (HTTP (generateConfiguration range_asc 0%Z
                                   snap_sample)) !! k)
         ∨ is_Some (Services (HTTP (generateConfiguration range_asc 0%Z
                                      snap_sample)) !! k) →
         ∃ nodeName id name,
           running_workload sample_client nodeName id name
           ∧ k = name ++ "-" ++ fmt_d id.
Proof.
  assert (Hr : range_order range_asc snap_sample) by apply range_asc_order.
  split; [exact sample_getServiceMap|]. split; [exact Hr|].
  exact (proj2 (proj2 (proj2 (proj2
    (C5_only_running sample_client range_asc 0%Z snap_sample
       sample_getServiceMap Hr))))).
Defined.

Example sample_stopped_absent :
  Routers (HTTP (generateConfiguration range_asc 0%Z snap_sample)) !! "db-101"
  = None
  ∧ dom (Routers (HTTP (generateConfiguration range_asc 0%Z snap_sample)))
    = {[ "web-100"; "cache-200" ]}.
Proof. split; vm_compute; reflexivity. Qed.

(** ** Failures during a poll cycle *)

(** C7.  When the node listing fails, [updateConfiguration] returns an
    error and the channel is as before: nothing is sent.  When it succeeds,
    the cycle sends exactly one configuration, the one synthesized from the
    services map of the cycle; in that map a node whose VM listing or
    container listing fails has no entry, and every listed node whose scan
    succeeds has its scanned services, whatever happens on the other
    nodes. *)
Theorem C7_poll_cycle p range now cfgChan :
  (is_Err (GetNodes (client p)) →
   ∃ err, updateConfiguration p range now cfgChan = (Some err, cfgChan))
  ∧ (∀ nodes, GetNodes (client p) = Ok nodes →
     ∃ servicesMap,
       getServiceMap (client p) = Ok servicesMap
       ∧ updateConfiguration p range now cfgChan
         = (None,
            (cfgChan
             ++ [ {| payload :=
                       generateConfiguration range now servicesMap |} ])%list)
       ∧ ∀ nodeName,
           (is_Err (GetVirtualMachines (client p) nodeName)
            ∨ is_Err (GetContainers (client p) nodeName) →
            servicesMap !! nodeName = None)
           ∧ (∀ services,
                nodeName ∈ Node <$> nodes →
                scanServices (client p) nodeName = Ok services →
                servicesMap !! nodeName = Some services)
           ∧ (∀ vms cts,
                nodeName ∈ Node <$> nodes →
                GetVirtualMachines (client p) nodeName = Ok vms →
                GetContainers (client p) nodeName = Ok cts →
                is_Some (servicesMap !! nodeName))).
Proof.
  split.
  - intros Herr. unfold updateConfiguration, getServiceMap.
    destruct (GetNodes (client p)); [done|]. by eexists.
  - intros nodes Hnodes.
    destruct (getServiceMap_Ok (client p) nodes Hnodes)
      as (servicesMap & Hmap & Hlookup).
    exists servicesMap. split; [done|]. split.
    { unfold updateConfiguration. by rewrite Hmap. }
    intros nodeName. split_and!.
    + intros Herr%scanServices_Err. rewrite Hlookup.
      by destruct (scanServices (client p) nodeName).
    + intros services Hin Hscan. rewrite Hlookup, Hscan.
      by rewrite decide_True.
    + intros vms cts Hin Hvms Hcts. rewrite Hlookup.
      rewrite (scanServices_Ok _ _ vms cts) by done.
      by rewrite decide_True.
Qed.

Lemma C7_poll_cycle_witness :
  (is_Err (GetNodes offline_client)
   ∧ ∃ err, updateConfiguration (sample_provider offline_client) range_asc
              0%Z [] = (Some err, []))
  ∧ (is_Err (GetVirtualMachines sample_client "pve2")
     ∧ ∃ servicesMap,
         updateConfiguration (sample_provider sample_client) range_asc 0%Z []
         = (None, [ {| payload := generateConfiguration range_asc 0%Z
                                     servicesMap |} ])
         ∧ servicesMap !! "pve2" = None
         ∧ servicesMap !! "pve1" = Some [web100; cache200]).
Proof.
  split.
  - assert (Hoff : is_Err (GetNodes offline_client)) by exact I.
    split; [exact Hoff|].
    exact (proj1 (C7_poll_cycle (sample_provider offline_client) range_asc
                    0%Z []) Hoff).
  - assert (Hvms : is_Err (GetVirtualMachines sample_client "pve2"))
      by exact I.
    split; [exact Hvms|].
    destruct (proj2 (C7_poll_cycle (sample_provider sample_client) range_asc
                       0%Z []) _ eq_refl)
      as (servicesMap & _ & Hsend & Hnodes).
    exists servicesMap. split; [exact Hsend|]. split.
    + apply (Hnodes "pve2"). by left.
    + apply (Hnodes "pve1").
      * apply list_elem_of_here.
      * exact sample_scan_pve1.
Defined.

(** ** Failures on one workload *)

(** C8, as a workload whose network interfaces cannot be read forces it.
    When the two listings of a node succeed, its scan succeeds whatever
    happens on single workloads, and every workload contributes on its own,
    in listing order.  A running workload whose configuration cannot be
    fetched contributes no service.  A running workload whose configuration
    is fetched always contributes one service, with its ID, its name and
    its directive map: with the addresses read when the network interfaces
    are read, and with the address list left empty when they cannot be
    read. *)
Theorem C8_workload_failures client nodeName vms cts :
  GetVirtualMachines client nodeName = Ok vms →
  GetContainers client nodeName = Ok cts →
  let addresses id :=
    match GetVMNetworkInterfaces client nodeName id with
    | Ok interfaces => GetIPs interfaces
    | Err _ => []
    end in
  let of_vm vm :=
    if decide (vm_Status vm = "running") then
      match GetVMConfig client nodeName (vm_VMID vm) with
      | Ok config =>
          [ {| ID := vm_VMID vm; Name := vm_Name vm;
               Config := GetTraefikMap config;
               IPs := addresses (vm_VMID vm) |} ]
      | Err _ => []
      end
    else [] in
  let of_ct ct :=
    if decide (ct_Status ct = "running") then
      match GetContainerConfig client nodeName (ct_VMID ct) with
      | Ok config =>
          [ {| ID := ct_VMID ct; Name := ct_Name ct;
               Config := GetTraefikMap config;
               IPs := addresses (ct_VMID ct) |} ]
      | Err _ => []
      end
    else [] in
  scanServices client nodeName
  = Ok ((vms ≫= of_vm) ++ (cts ≫= of_ct))%list.
Proof.
  intros Hvms Hcts addresses of_vm of_ct.
  rewrite (scanServices_Ok _ _ vms cts) by done.
  assert (Hbuild : ∀ id name config,
    buildService client nodeName id name config
    = {| ID := id; Name := name; Config := GetTraefikMap config;
         IPs := addresses id |}).
  { intros id name config. unfold buildService, getIPsOfService.
    subst addresses. simpl.
    by destruct (GetVMNetworkInterfaces client nodeName id). }
  f_equal. f_equal.
  - apply list_bind_ext; [|done]. intros vm. subst of_vm. unfold scanVM. simpl.
    case_decide as Hst.
    + apply String.eqb_eq in Hst. rewrite Hst.
      destruct (GetVMConfig client nodeName (vm_VMID vm)); [|done].
      simpl. by rewrite Hbuild.
    + apply String.eqb_neq in Hst. by rewrite Hst.
  - apply list_bind_ext; [|done]. intros ct. subst of_ct. unfold scanCT. simpl.
    case_decide as Hst.
    + apply String.eqb_eq in Hst. rewrite Hst.
      destruct (GetContainerConfig client nodeName (ct_VMID ct)); [|done].
      simpl. by rewrite Hbuild.
    + apply String.eqb_neq in Hst. by rewrite Hst.
Qed.

Lemma C8_workload_failures_witness :
  scanServices sample_client "pve1" = Ok [web100; cache200].
Proof.
  assert (Hvms : GetVirtualMachines sample_client "pve1"
                 = Ok [ {| vm_VMID := 100; vm_Name := "web";
                           vm_Status := "running" |};
                        {| vm_VMID := 101; vm_Name := "db";
                           vm_Status := "stopped" |} ]) by reflexivity.
  assert (Hcts : GetContainers sample_client "pve1"
                 = Ok [ {| ct_VMID := 200; ct_Name := "cache";
                           ct_Status := "running" |} ]) by reflexivity.
  rewrite (C8_workload_failures sample_client "pve1" _ _ Hvms Hcts).
  vm_compute. reflexivity.
Defined.

(** C8 as stated fails: the network interfaces of the running container 200
    cannot be read, and the scan still yields a service for it. *)
Lemma C8_counterexample :
  is_Err (GetVMNetworkInterfaces sample_client "pve1" 200)
  ∧ ∃ services, scanServices sample_client "pve1" = Ok services
      ∧ {| ID := 200; Name := "cache";
           Config := {[ "traefik.enable" := "true" ]}; IPs := [] |}
        ∈ services.
Proof.
  split; [exact I|]. exists [web100; cache200].
  split; [vm_compute; reflexivity|].
  apply list_elem_of_further, list_elem_of_here.
Qed.

(** ** Construction *)

(** C10.  When the poll interval of the configuration parses, and parses to
    a duration strictly below five seconds, [New] returns an error and no
    provider; for a configuration that passes [validateConfig] the error is
    the one of the minimum-interval check. *)
Theorem C10_minimum_poll_interval env config name pi :
  ParseDuration env (PollInterval config) = Ok pi →
  (pi < 5 * Second)%Z →
  is_Err (New env (Some config) name)
  ∧ (validateConfig (Some config) = None →
     New env (Some config) name
     = Err (fmt_Errorf_duration
              "poll interval must be at least 5 seconds, got %v" pi)).
Proof.
  intros Hparse Hlt. unfold New.
  destruct (validateConfig (Some config)) as [err|]; [by split|].
  rewrite Hparse. apply Z.ltb_lt in Hlt. rewrite Hlt. by split.
Qed.

Lemma C10_minimum_poll_interval_witness :
  ParseDuration sample_env (PollInterval (config_with_interval "1s"))
  = Ok Second
  ∧ (Second < 5 * Second)%Z
  ∧ New sample_env (Some (config_with_interval "1s")) "proxmox"
    = Err (fmt_Errorf_duration
             "poll interval must be at least 5 seconds, got %v" Second).
Proof.
  assert (Hparse : ParseDuration sample_env
                     (PollInterval (config_with_interval "1s")) = Ok Second)
    by reflexivity.
  assert (Hlt : (Second < 5 * Second)%Z) by reflexivity.
  split; [exact Hparse|]. split; [exact Hlt|].
  apply (C10_minimum_poll_interval sample_env (config_with_interval "1s")
           "proxmox" Second Hparse Hlt).
  reflexivity.
Defined.

Example sample_30s_accepted :
  ∃ p, New sample_env (Some (config_with_interval "30s")) "proxmox" = Ok p
       ∧ pollInterval p = (30 * Second)%Z.
Proof. eexists. split; reflexivity. Qed.

(** * Further properties of synthesis *)

Lemma fold_skipped l c :
  (∀ visit, visit ∈ l → ¬ emitted visit.1 visit.2) →
  fold_left processVisit l c = c.
Proof.
  revert c. induction l as [|visit l IH]; intros c Hno; simpl; [done|].
  unfold processVisit at 2.
  rewrite processService_skipped by (apply Hno, list_elem_of_here).
  apply IH. intros; apply Hno. by apply list_elem_of_further.
Qed.

(** Visits that do not emit under [k] leave the entries of [k] alone. *)
Lemma fold_untouched l c k :
  (∀ visit, visit ∈ l → emitted visit.1 visit.2 →
            serviceName visit.2 ≠ k) →
  Services (HTTP (fold_left processVisit l c)) !! k = Services (HTTP c) !! k
  ∧ Routers (HTTP (fold_left processVisit l c)) !! k = Routers (HTTP c) !! k.
Proof.
  revert c. induction l as [|visit l IH]; intros c Hno; simpl; [done|].
  destruct (IH (processVisit c visit)) as [Hs Hr].
  { intros; apply Hno; [by apply list_elem_of_further|done]. }
  rewrite Hs, Hr, processVisit_Services, processVisit_Routers.
  assert (Hnot : ¬ (emitted visit.1 visit.2 ∧ serviceName visit.2 = k)).
  { intros [Hem Hk]. by apply (Hno visit (list_elem_of_here _ _)). }
  by rewrite !decide_False by done.
Qed.

Lemma fold_last_wins l1 visit l2 c :
  emitted visit.1 visit.2 →
  (∀ visit', visit' ∈ l2 → emitted visit'.1 visit'.2 →
             serviceName visit'.2 ≠ serviceName visit.2) →
  Services (HTTP (fold_left processVisit (l1 ++ visit :: l2) c))
    !! serviceName visit.2 = Some (backendOf visit.1 visit.2)
  ∧ Routers (HTTP (fold_left processVisit (l1 ++ visit :: l2) c))
      !! serviceName visit.2 = Some (routerOf visit.2).
Proof.
  intros Hem Hlater. rewrite fold_left_app. simpl.
  destruct (fold_untouched l2 (processVisit (fold_left processVisit l1 c) visit)
              (serviceName visit.2) Hlater) as [-> ->].
  rewrite processVisit_Services, processVisit_Routers.
  by rewrite !decide_True by done.
Qed.

Lemma visits_app order1 order2 :
  visits (order1 ++ order2) = (visits order1 ++ visits order2)%list.
Proof. unfold visits. apply bind_app. Qed.

Lemma visits_cons nodeName services order :
  visits ((nodeName, services) :: order)
  = (((λ service, (nodeName, service)) <$> services) ++ visits order)%list.
Proof. unfold visits. by rewrite bind_cons. Qed.

Lemma string_app_assoc (a b c : string) : (a ++ b) ++ c = a ++ (b ++ c).
Proof.
  induction a as [|ch a IH]; [done|].
  change (String ch ((a ++ b) ++ c) = String ch (a ++ (b ++ c))).
  by rewrite IH.
Qed.

(** X1.  In the synthesized configuration the routers and the backend
    services have the same keys, and every router names as its service the
    key it is stored under and has priority 1: no router points to a
    backend that is not there. *)
Theorem X1_router_integrity range date servicesMap :
  range_order range servicesMap →
  let out := HTTP (generateConfiguration range date servicesMap) in
  dom (Routers out) = dom (Services out)
  ∧ ∀ k r, Routers out !! k = Some r →
      RouterService r = k ∧ Priority r = 1%Z
      ∧ is_Some (Services out !! RouterService r).
Proof.
  intros Hrange out.
  assert (Hdom : ∀ k, is_Some (Routers out !! k) ↔ is_Some (Services out !! k)).
  { intros k.
    destruct (generate_keys range date servicesMap k Hrange) as [Hs Hr].
    etrans; [exact Hr|symmetry; exact Hs]. }
  split.
  - apply set_eq. intros k. rewrite !elem_of_dom. apply Hdom.
  - intros k r Hr.
    assert (Hsome : is_Some (Routers out !! k)) by by exists r.
    apply generate_Routers_sound in Hr as (n&s&_&_&<-&->); [|done].
    simpl. split_and!; try done. by apply Hdom.
Qed.

Lemma X1_router_integrity_witness :
  range_order range_asc snap_two_nodes
  ∧ dom (Routers (HTTP (generateConfiguration range_asc 0%Z snap_two_nodes)))
    = dom (Services (HTTP (generateConfiguration range_asc 0%Z
                             snap_two_nodes))).
Proof.
  assert (Hr : range_order range_asc snap_two_nodes)
    by apply range_asc_order.
  split; [exact Hr|].
  exact (proj1 (X1_router_integrity range_asc 0%Z snap_two_nodes Hr)).
Defined.

(** X2.  Every backend service of the synthesized configuration passes the
    host header, has at least one server, and each of its servers has a URL
    [http://<host>:<port>] with a non-empty host and with the port of an
    enabled service of the snapshot that has the backend's key. *)
Theorem X2_backend_well_formed range date servicesMap k backend :
  range_order range servicesMap →
  Services (HTTP (generateConfiguration range date servicesMap)) !! k
  = Some backend →
  PassHostHeader (LoadBalancer backend) = Some true
  ∧ Servers (LoadBalancer backend) ≠ []
  ∧ ∃ nodeName service,
      in_snapshot servicesMap nodeName service
      ∧ Config service !! "traefik.enable" = Some "true"
      ∧ serviceName service = k
      ∧ ∀ server, server ∈ Servers (LoadBalancer backend) →
          ∃ host, host ≠ ""
            ∧ URL server = "http://" ++ host ++ ":" ++ servicePort service.
Proof.
  intros Hrange (n&s&Hin&[Hen Hne]&Hk&->)%generate_Services_sound; [|done].
  simpl. split_and!; try done.
  exists n, s. split_and!; try done.
  intros server Hsrv.
  destruct (decide (IPs s = [])) as [Hips|Hips].
  - rewrite resolveServers_fallback in Hsrv by done.
    apply list_elem_of_singleton in Hsrv as ->.
    exists (Name s ++ "." ++ n). split; [by destruct (Name s)|].
    by rewrite !string_app_assoc.
  - rewrite resolveServers_addresses in Hsrv by done.
    apply list_elem_of_fmap in Hsrv as (ip & -> & Hip).
    apply list_elem_of_filter in Hip as [Hip _].
    by exists (Address ip).
Qed.

Lemma X2_backend_well_formed_witness :
  range_order range_asc snap_web100
  ∧ Services (HTTP (generateConfiguration range_asc 0%Z snap_web100))
      !! "web-100"
    = Some {| LoadBalancer := {| PassHostHeader := Some true;
         Servers := [ {| URL := "http://10.0.0.5:8080" |} ] |} |}
  ∧ Servers (LoadBalancer
      {| LoadBalancer := {| PassHostHeader := Some true;
           Servers := [ {| URL := "http://10.0.0.5:8080" |} ] |} |}) ≠ [].
Proof.
  assert (Hr : range_order range_asc snap_web100) by apply range_asc_order.
  split; [exact Hr|]. split; [exact web100_services|].
  exact (proj1 (proj2 (X2_backend_well_formed range_asc 0%Z snap_web100
                         "web-100" _ Hr web100_services))).
Defined.

(** X3.  The key [fmt.Sprintf("%s-%d", name, id)] is unambiguous: two
    services have the same key exactly when they have the same name and the
    same ID, whatever dashes and digits the names contain. *)
Theorem X3_key_injective s1 s2 :
  serviceName s1 = serviceName s2 ↔ Name s1 = Name s2 ∧ ID s1 = ID s2.
Proof.
  split; [apply serviceName_inj|].
  unfold serviceName. by intros [-> ->].
Qed.

(** X4.  Synthesis returns the empty configuration exactly when no service
    of the snapshot is both enabled and left with an endpoint; in particular
    for the empty snapshot and for nodes without services. *)
Theorem X4_empty_configuration range date servicesMap :
  range_order range servicesMap →
  generateConfiguration range date servicesMap = emptyConfiguration
  ↔ ∀ nodeName service, in_snapshot servicesMap nodeName service →
      ¬ (Config service !! "traefik.enable" = Some "true"
         ∧ resolveServers nodeName service ≠ []).
Proof.
  intros Hrange. split.
  - intros Hempty n s Hin Hem.
    destruct (generate_complete range date _ _ _ Hrange Hin Hem)
      as [[v Hv] _].
    rewrite Hempty in Hv. simpl in Hv. by rewrite lookup_empty in Hv.
  - intros Hnone. rewrite generateConfiguration_visits.
    apply fold_skipped. intros [n s] Hvisit. simpl.
    apply (elem_of_range_visits range) in Hvisit; [|done].
    by apply Hnone.
Qed.

Lemma X4_empty_configuration_witness :
  range_order range_asc snap_blank_ip
  ∧ generateConfiguration range_asc 0%Z snap_blank_ip = emptyConfiguration.
Proof.
  assert (Hr : range_order range_asc snap_blank_ip) by apply range_asc_order.
  split; [exact Hr|].
  apply (X4_empty_configuration range_asc 0%Z snap_blank_ip Hr).
  intros n s [-> Hs]%in_snapshot_singleton [_ Hne].
  apply list_elem_of_singleton in Hs as ->.
  apply Hne. vm_compute. reflexivity.
Defined.

(** X5.  Collisions are resolved by the last write.  When a node lists a
    service that is enabled and left with an endpoint, and no enabled
    service later in that node's list or on any other node has the same
    name and ID, the synthesized configuration holds under its key the
    backend and the router of that service, whatever precedes it in the
    list and whatever the traversal of the map. *)
Theorem X5_last_write_wins range date servicesMap nodeName before service
    after :
  range_order range servicesMap →
  servicesMap !! nodeName = Some (before ++ service :: after)%list →
  Config service !! "traefik.enable" = Some "true" →
  resolveServers nodeName service ≠ [] →
  (∀ s', s' ∈ after → Config s' !! "traefik.enable" = Some "true" →
         ¬ (Name s' = Name service ∧ ID s' = ID service)) →
  (∀ n' s', n' ≠ nodeName → in_snapshot servicesMap n' s' →
            Config s' !! "traefik.enable" = Some "true" →
            ¬ (Name s' = Name service ∧ ID s' = ID service)) →
  let out := HTTP (generateConfiguration range date servicesMap) in
  Services out !! serviceName service
  = Some {| LoadBalancer :=
              {| PassHostHeader := Some true;
                 Servers := resolveServers nodeName service |} |}
  ∧ Routers out !! serviceName service
    = Some {| RouterService := serviceName service;
              Rule := routerRule service; Priority := 1 |}.
Proof.
  intros Hrange Hnode Hen Hne Hafter Hother out. subst out.
  assert (Hentry : (nodeName, (before ++ service :: after)%list)
                   ∈ range servicesMap).
  { unfold range_order in Hrange. rewrite Hrange.
    by apply elem_of_map_to_list. }
  apply list_elem_of_split in Hentry as (order1 & order2 & Horder).
  assert (Hnodup : NoDup (range servicesMap).*1).
  { unfold range_order in Hrange. rewrite Hrange.
    apply NoDup_fst_map_to_list. }
  rewrite Horder, fmap_app, fmap_cons in Hnodup.
  apply NoDup_app in Hnodup as (_ & _ & Hnodup).
  apply NoDup_cons in Hnodup as [Hfresh _]. simpl in Hfresh.
  rewrite generateConfiguration_visits, Horder.
  rewrite visits_app, visits_cons, fmap_app, fmap_cons.
  rewrite <- !app_assoc, <- app_comm_cons, app_assoc.
  apply (fold_last_wins _ (nodeName, service)); [done|].
  simpl. intros [n' s'] Hlater [Hen' _] Hkey%serviceName_inj. simpl in *.
  apply elem_of_app in Hlater as [Hlater|Hlater].
  - apply list_elem_of_fmap in Hlater as (s'' & [= -> <-] & Hs').
    by apply (Hafter s').
  - apply elem_of_visits in Hlater as (services' & Hentry' & Hs').
    apply (Hother n' s'); try done.
    + intros ->. apply Hfresh.
      apply list_elem_of_fmap. by exists (nodeName, services').
    + exists services'. split; [|done].
      apply elem_of_map_to_list. unfold range_order in Hrange.
      rewrite <- Hrange, Horder.
      apply elem_of_app. right. by apply list_elem_of_further.
Qed.

Lemma X5_last_write_wins_witness :
  range_order range_asc snap_relisted
  ∧ snap_relisted !! "pve1" = Some ([web100] ++ web100_moved :: [])%list
  ∧ Services (HTTP (generateConfiguration range_asc 0%Z snap_relisted))
      !! "web-100"
    = Some {| LoadBalancer := {| PassHostHeader := Some true;
         Servers := [ {| URL := "http://10.0.0.9:80" |} ] |} |}.
Proof.
  assert (Hr : range_order range_asc snap_relisted) by apply range_asc_order.
  assert (Hnode : snap_relisted !! "pve1"
                  = Some ([web100] ++ web100_moved :: [])%list)
    by (vm_compute; reflexivity).
  assert (Hen : Config web100_moved !! "traefik.enable" = Some "true")
    by (vm_compute; reflexivity).
  assert (Hne : resolveServers "pve1" web100_moved ≠ [])
    by (vm_compute; discriminate).
  split; [exact Hr|]. split; [exact Hnode|].
  refine (proj1 (X5_last_write_wins range_asc 0%Z snap_relisted "pve1"
                   [web100] web100_moved [] Hr Hnode Hen Hne _ _)).
  - intros s' Hs'. by apply elem_of_nil in Hs'.
  - intros n' s' Hn' [Hn _]%in_snapshot_singleton. by destruct Hn'.
Defined.

(** X6.  Synthesis is monotone in the snapshot: when every node of one
    snapshot is a node of another with the same service list, every router
    key and every backend key of the first configuration is a key of the
    second. *)
Theorem X6_keys_monotone range1 range2 date1 date2 servicesMap1 servicesMap2 :
  range_order range1 servicesMap1 → range_order range2 servicesMap2 →
  servicesMap1 ⊆ servicesMap2 →
  dom (Routers (HTTP (generateConfiguration range1 date1 servicesMap1)))
  ⊆ dom (Routers (HTTP (generateConfiguration range2 date2 servicesMap2)))
  ∧ dom (Services (HTTP (generateConfiguration range1 date1 servicesMap1)))
    ⊆ dom (Services (HTTP (generateConfiguration range2 date2 servicesMap2))).
Proof.
  intros H1 H2 Hsub.
  assert (Hin : ∀ n s, in_snapshot servicesMap1 n s →
                       in_snapshot servicesMap2 n s).
  { intros n s (l & Hl & Hs). exists l. split; [|done].
    by apply (lookup_weaken servicesMap1). }
  split; intros k; rewrite !elem_of_dom.
  - destruct (generate_keys range1 date1 servicesMap1 k H1) as [_ Hk1].
    destruct (generate_keys range2 date2 servicesMap2 k H2) as [_ Hk2].
    intros (n & s & ? & ? & ?)%Hk1. apply Hk2. exists n, s. auto.
  - destruct (generate_keys range1 date1 servicesMap1 k H1) as [Hk1 _].
    destruct (generate_keys range2 date2 servicesMap2 k H2) as [Hk2 _].
    intros (n & s & ? & ? & ?)%Hk1. apply Hk2. exists n, s. auto.
Qed.

Lemma X6_keys_monotone_witness :
  range_order range_asc snap_web100 ∧ range_order range_desc snap_two_nodes
  ∧ snap_web100 ⊆ snap_two_nodes
  ∧ dom (Routers (HTTP (generateConfiguration range_asc 0%Z snap_web100)))
    ⊆ dom (Routers (HTTP (generateConfiguration range_desc 1%Z
                            snap_two_nodes))).
Proof.
  assert (H1 : range_order range_asc snap_web100) by apply range_asc_order.
  assert (H2 : range_order range_desc snap_two_nodes)
    by apply range_desc_order.
  assert (Hsub : snap_web100 ⊆ snap_two_nodes).
  { apply map_subseteq_spec. unfold snap_web100. intros n l Hl.
    apply lookup_singleton_Some in Hl as [<- <-].
    vm_compute. reflexivity. }
  split; [exact H1|]. split; [exact H2|]. split; [exact Hsub|].
  exact (proj1 (X6_keys_monotone range_asc range_desc 0%Z 1%Z
                  snap_web100 snap_two_nodes H1 H2 Hsub)).
Defined.

(** * Further properties of the scan *)

Section node_scan_more.
  Context (client : ProxmoxClient) (nodeName : string).

Lemma buildService_eq id name config :
  buildService client nodeName id name config
  = {| ID := id; Name := name; Config := GetTraefikMap config;
       IPs := scanned_addresses client nodeName id |}.
Proof.
  unfold buildService, getIPsOfService, scanned_addresses.
  by destruct (GetVMNetworkInterfaces client nodeName id).
Qed.

Lemma elem_of_scanVM vm s :
  s ∈ scanVM client nodeName [] vm
  ↔ vm_Status vm = "running"
    ∧ ∃ config, GetVMConfig client nodeName (vm_VMID vm) = Ok config
        ∧ s = buildService client nodeName (vm_VMID vm) (vm_Name vm) config.
Proof.
  unfold scanVM.
  destruct (String.eqb (vm_Status vm) "running") eqn:Hst.
  - apply String.eqb_eq in Hst.
    destruct (GetVMConfig client nodeName (vm_VMID vm)) as [config|e].
    + simpl. rewrite list_elem_of_singleton. split.
      * intros ->. eauto.
      * by intros (_ & config' & [= <-] & ->).
    + split; [by intros ?%elem_of_nil|by intros (_ & ? & ? & _)].
  - apply String.eqb_neq in Hst.
    split; [by intros ?%elem_of_nil|by intros [? _]].
Qed.

Lemma elem_of_scanCT ct s :
  s ∈ scanCT client nodeName [] ct
  ↔ ct_Status ct = "running"
    ∧ ∃ config, GetContainerConfig client nodeName (ct_VMID ct) = Ok config
        ∧ s = buildService client nodeName (ct_VMID ct) (ct_Name ct) config.
Proof.
  unfold scanCT.
  destruct (String.eqb (ct_Status ct) "running") eqn:Hst.
  - apply String.eqb_eq in Hst.
    destruct (GetContainerConfig client nodeName (ct_VMID ct))
      as [config|e].
    + simpl. rewrite list_elem_of_singleton. split.
      * intros ->. eauto.
      * by intros (_ & config' & [= <-] & ->).
    + split; [by intros ?%elem_of_nil|by intros (_ & ? & ? & _)].
  - apply String.eqb_neq in Hst.
    split; [by intros ?%elem_of_nil|by intros [? _]].
Qed.

(** The services of a scan are the services built for the running
    workloads whose configuration is fetched. *)
Lemma elem_of_scanServices services s :
  scanServices client nodeName = Ok services →
  s ∈ services
  ↔ ∃ config, fetched_config client nodeName (ID s) (Name s) config
      ∧ s = buildService client nodeName (ID s) (Name s) config.
Proof.
  intros (vms & cts & Hvms & Hcts & ->)%scanServices_Ok_inv.
  rewrite elem_of_app, !list_elem_of_bind. split.
  - intros [(vm & Hs & Hvm)|(ct & Hs & Hct)].
    + apply elem_of_scanVM in Hs as (Hst & config & Hcfg & ->).
      rewrite buildService_eq. simpl. exists config.
      split; [|by rewrite buildService_eq]. left. by exists vms, vm.
    + apply elem_of_scanCT in Hs as (Hst & config & Hcfg & ->).
      rewrite buildService_eq. simpl. exists config.
      split; [|by rewrite buildService_eq]. right. by exists cts, ct.
  - intros (config & [(vms' & vm & Hvms' & Hvm & Hst & Hid & Hname & Hcfg)
                     |(cts' & ct & Hcts' & Hct & Hst & Hid & Hname & Hcfg)]
            & Hs).
    + left. exists vm. assert (vms' = vms) as -> by congruence.
      split; [|done]. apply elem_of_scanVM. split; [done|].
      exists config. by rewrite Hid, Hname.
    + right. exists ct. assert (cts' = cts) as -> by congruence.
      split; [|done]. apply elem_of_scanCT. split; [done|].
      exists config. by rewrite Hid, Hname.
Qed.

Lemma scanVM_IDs vms :
  ID <$> (vms ≫= scanVM client nodeName [])
  = vm_VMID
    <$> filter (λ vm, vm_Status vm = "running"
                      ∧ ¬ is_Err (GetVMConfig client nodeName (vm_VMID vm)))
          vms.
Proof.
  induction vms as [|vm vms IH]; [done|].
  rewrite bind_cons, fmap_app, IH. unfold scanVM at 1.
  destruct (String.eqb (vm_Status vm) "running") eqn:Hst.
  - apply String.eqb_eq in Hst.
    destruct (GetVMConfig client nodeName (vm_VMID vm)) as [config|e]
      eqn:Hcfg.
    + rewrite filter_cons_True by (split; [done|rewrite Hcfg; intros []]).
      by rewrite buildService_eq.
    + rewrite filter_cons_False; [done|]. rewrite Hcfg. simpl. tauto.
  - apply String.eqb_neq in Hst.
    rewrite filter_cons_False; [done|]. tauto.
Qed.

Lemma scanCT_IDs cts :
  ID <$> (cts ≫= scanCT client nodeName [])
  = ct_VMID
    <$> filter (λ ct, ct_Status ct = "running"
                      ∧ ¬ is_Err (GetContainerConfig client nodeName
                                    (ct_VMID ct)))
          cts.
Proof.
  induction cts as [|ct cts IH]; [done|].
  rewrite bind_cons, fmap_app, IH. unfold scanCT at 1.
  destruct (String.eqb (ct_Status ct) "running") eqn:Hst.
  - apply String.eqb_eq in Hst.
    destruct (GetContainerConfig client nodeName (ct_VMID ct))
      as [config|e] eqn:Hcfg.
    + rewrite filter_cons_True by (split; [done|rewrite Hcfg; intros []]).
      by rewrite buildService_eq.
    + rewrite filter_cons_False; [done|]. rewrite Hcfg. simpl. tauto.
  - apply String.eqb_neq in Hst.
    rewrite filter_cons_False; [done|]. tauto.
Qed.

End node_scan_more.

(** X7.  A node scan yields one service per running workload whose
    configuration is fetched, in listing order with the virtual machines
    before the containers: the IDs of the scanned services are the IDs of
    those workloads, so no workload is merged with or counted for
    another. *)
Theorem X7_scan_one_service_per_workload client nodeName vms cts :
  GetVirtualMachines client nodeName = Ok vms →
  GetContainers client nodeName = Ok cts →
  ∃ services,
    scanServices client nodeName = Ok services
    ∧ ID <$> services
      = ((vm_VMID
          <$> filter (λ vm, vm_Status vm = "running"
                ∧ ¬ is_Err (GetVMConfig client nodeName (vm_VMID vm))) vms)
         ++ (ct_VMID
             <$> filter (λ ct, ct_Status ct = "running"
                   ∧ ¬ is_Err (GetContainerConfig client nodeName
                                 (ct_VMID ct))) cts))%list.
Proof.
  intros Hvms Hcts. eexists. split; [by apply scanServices_Ok|].
  by rewrite fmap_app, scanVM_IDs, scanCT_IDs.
Qed.

Lemma X7_scan_one_service_per_workload_witness :
  ∃ services,
    scanServices sample_client "pve1" = Ok services
    ∧ ID <$> services = [100%N; 200%N].
Proof.
  assert (Hvms : GetVirtualMachines sample_client "pve1"
                 = Ok [ {| vm_VMID := 100; vm_Name := "web";
                           vm_Status := "running" |};
                        {| vm_VMID := 101; vm_Name := "db";
                           vm_Status := "stopped" |} ]) by reflexivity.
  assert (Hcts : GetContainers sample_client "pve1"
                 = Ok [ {| ct_VMID := 200; ct_Name := "cache";
                           ct_Status := "running" |} ]) by reflexivity.
  destruct (X7_scan_one_service_per_workload sample_client "pve1" _ _
              Hvms Hcts) as (services & Hscan & Hids).
  exists services. split; [exact Hscan|].
  rewrite Hids. vm_compute. reflexivity.
Defined.

(** * Further properties of a poll cycle *)

Lemma in_snapshot_getServiceMap client nodes servicesMap nodeName s :
  GetNodes client = Ok nodes →
  getServiceMap client = Ok servicesMap →
  in_snapshot servicesMap nodeName s
  ↔ nodeName ∈ Node <$> nodes
    ∧ ∃ services, scanServices client nodeName = Ok services ∧ s ∈ services.
Proof.
  intros Hnodes Hmap.
  destruct (getServiceMap_Ok client nodes Hnodes) as (m & Hm & Hlookup).
  assert (m = servicesMap) as -> by congruence.
  unfold in_snapshot. setoid_rewrite Hlookup.
  destruct (scanServices client nodeName) as [services|e].
  - case_decide as Hin.
    + split.
      * intros (l & [= <-] & Hs). eauto.
      * intros (_ & l & [= <-] & Hs). eauto.
    + split; [by intros (l & ? & _)|by intros [? _]].
  - split; [by intros (l & ? & _)|by intros (_ & l & ? & _)].
Qed.

Lemma generateConfiguration_empty range date :
  range_order range ∅ → generateConfiguration range date ∅ = emptyConfiguration.
Proof.
  unfold range_order, generateConfiguration. rewrite map_to_list_empty.
  by intros ->%Permutation_nil_r.
Qed.

(** X8.  When the node listing succeeds and the scan of every listed node
    fails, in particular when no node is listed, the cycle reports no error
    and publishes the empty configuration: the routes of the previous
    cycle are not kept. *)
Theorem X8_all_nodes_down p range now cfgChan nodes :
  range_order range ∅ →
  GetNodes (client p) = Ok nodes →
  (∀ nodeName, nodeName ∈ Node <$> nodes →
     is_Err (GetVirtualMachines (client p) nodeName)
     ∨ is_Err (GetContainers (client p) nodeName)) →
  updateConfiguration p range now cfgChan
  = (None, (cfgChan ++ [ {| payload := emptyConfiguration |} ])%list).
Proof.
  intros Hrange Hnodes Hdown.
  destruct (getServiceMap_Ok (client p) nodes Hnodes)
    as (servicesMap & Hmap & Hlookup).
  assert (servicesMap = ∅) as ->.
  { apply map_eq. intros nodeName. rewrite Hlookup, lookup_empty.
    destruct (scanServices (client p) nodeName) as [services|e] eqn:Hscan;
      [|done].
    case_decide as Hin; [|done].
    apply Hdown, scanServices_Err in Hin. by rewrite Hscan in Hin. }
  unfold updateConfiguration. rewrite Hmap.
  by rewrite generateConfiguration_empty.
Qed.

Lemma X8_all_nodes_down_witness :
  range_order range_asc ∅
  ∧ updateConfiguration (sample_provider nodes_down_client) range_asc 0%Z []
    = (None, [ {| payload := emptyConfiguration |} ]).
Proof.
  assert (Hr : range_order range_asc ∅) by apply range_asc_order.
  split; [exact Hr|].
  apply (X8_all_nodes_down (sample_provider nodes_down_client) range_asc
           0%Z [] [ {| Node := "pve1" |}; {| Node := "pve2" |} ] Hr eq_refl).
  intros nodeName _. left. exact I.
Defined.

(** X9.  What a cycle routes.  The configuration synthesized from the
    services map of a cycle has a router (and a backend) under a key
    exactly when the key is ["<name>-<id>"] of a workload that is listed
    as running on a listed node whose two listings succeed, whose
    configuration is fetched and has [traefik.enable] equal to ["true"],
    and whose scanned addresses are none (also when the interfaces cannot
    be read) or include a non-empty one. *)
Theorem X9_routed_workloads client range date nodes servicesMap k :
  GetNodes client = Ok nodes →
  getServiceMap client = Ok servicesMap →
  range_order range servicesMap →
  is_Some (Routers (HTTP (generateConfiguration range date servicesMap)) !! k)
  ↔ ∃ nodeName id name config,
      nodeName ∈ Node <$> nodes
      ∧ ¬ is_Err (GetVirtualMachines client nodeName)
      ∧ ¬ is_Err (GetContainers client nodeName)
      ∧ fetched_config client nodeName id name config
      ∧ GetTraefikMap config !! "traefik.enable" = Some "true"
      ∧ (scanned_addresses client nodeName id = []
         ∨ ∃ ip, ip ∈ scanned_addresses client nodeName id
                 ∧ Address ip ≠ "")
      ∧ k = name ++ "-" ++ fmt_d id.
Proof.
  intros Hnodes Hmap Hrange.
  destruct (generate_keys range date servicesMap k Hrange) as [_ Hkeys].
  etrans; [exact Hkeys|]. clear Hkeys. split.
  - intros (n & s & Hin & [Hen Hne] & <-).
    apply (in_snapshot_getServiceMap client nodes) in Hin
      as (Hn & services & Hscan & Hs); [|done..].
    apply (elem_of_scanServices client n services s Hscan) in Hs
      as (config & Hfetched & Hs).
    rewrite buildService_eq in Hs.
    assert (Hconfig : Config s = GetTraefikMap config)
      by (by rewrite Hs).
    assert (Hips : IPs s = scanned_addresses client n (ID s))
      by (by rewrite Hs at 1).
    exists n, (ID s), (Name s), config.
    assert (Hok : ¬ is_Err (scanServices client n))
      by (rewrite Hscan; intros []).
    rewrite scanServices_Err in Hok.
    apply resolveServers_nonempty in Hne.
    unfold enabled in Hen. rewrite Hconfig in Hen. rewrite Hips in Hne.
    split_and!; try done; tauto.
  - intros (n & id & name & config & Hn & Hvms & Hcts & Hfetched & Hen
            & Haddr & ->).
    set (s := buildService client n id name config).
    assert (Hs : s = {| ID := id; Name := name;
                        Config := GetTraefikMap config;
                        IPs := scanned_addresses client n id |})
      by apply buildService_eq.
    exists n, s. split_and!.
    + apply (in_snapshot_getServiceMap client nodes); [done..|].
      split; [done|].
      destruct (scanServices client n) as [services|e] eqn:Hscan.
      * exists services. split; [done|].
        apply (elem_of_scanServices client n services s Hscan).
        exists config. rewrite Hs. simpl. split; [done|].
        by rewrite buildService_eq.
      * exfalso. assert (Herr : is_Err (scanServices client n))
          by (rewrite Hscan; exact I).
        apply scanServices_Err in Herr. tauto.
    + split.
      * unfold enabled. by rewrite Hs.
      * apply resolveServers_nonempty. by rewrite Hs.
    + unfold serviceName. by rewrite Hs.
Qed.

Lemma X9_routed_workloads_witness :
  GetNodes sample_client
  = Ok [ {| Node := "pve1" |}; {| Node := "pve2" |} ]
  ∧ getServiceMap sample_client = Ok snap_sample
  ∧ range_order range_asc snap_sample
  ∧ is_Some (Routers (HTTP (generateConfiguration range_asc 0%Z snap_sample))
               !! "cache-200").
Proof.
  assert (Hr : range_order range_asc snap_sample) by apply range_asc_order.
  split; [reflexivity|]. split; [exact sample_getServiceMap|].
  split; [exact Hr|].
  apply (X9_routed_workloads sample_client range_asc 0%Z _ snap_sample
           "cache-200" eq_refl sample_getServiceMap Hr).
  exists "pve1", 200%N, "cache", {| GetTraefikMap := Config cache200 |}.
  split_and!.
  - apply list_elem_of_here.
  - intros Herr. exact Herr.
  - intros Herr. exact Herr.
  - right. eexists _, {| ct_VMID := 200; ct_Name := "cache";
                         ct_Status := "running" |}.
    split; [reflexivity|]. split; [apply list_elem_of_here|].
    split_and!; reflexivity.
  - vm_compute. reflexivity.
  - left. reflexivity.
  - vm_compute. reflexivity.
Defined.

(** X10.  A running, enabled workload whose network interfaces cannot be
    read is still routed: when no other service of the cycle's services map
    has its ID, the synthesized configuration holds under its key a backend
    with the single server [http://<name>.<nodeName>:<port>]. *)
Theorem X10_unreadable_interfaces_fallback client range date nodes servicesMap
    nodeName id name config :
  GetNodes client = Ok nodes →
  getServiceMap client = Ok servicesMap →
  range_order range servicesMap →
  nodeName ∈ Node <$> nodes →
  ¬ is_Err (GetVirtualMachines client nodeName) →
  ¬ is_Err (GetContainers client nodeName) →
  fetched_config client nodeName id name config →
  GetTraefikMap config !! "traefik.enable" = Some "true" →
  is_Err (GetVMNetworkInterfaces client nodeName id) →
  (∀ n' s', in_snapshot servicesMap n' s' → ID s' = id →
            n' = nodeName
            ∧ s' = {| ID := id; Name := name; Config := GetTraefikMap config;
                      IPs := [] |}) →
  Services (HTTP (generateConfiguration range date servicesMap))
    !! (name ++ "-" ++ fmt_d id)
  = Some {| LoadBalancer :=
       {| PassHostHeader := Some true;
          Servers :=
            [ {| URL := "http://" ++ name ++ "." ++ nodeName ++ ":"
                        ++ default "80" (GetTraefikMap config
                                         !! "traefik.http.services.port") |}
            ] |} |}.
Proof.
  intros Hnodes Hmap Hrange Hn Hvms Hcts Hfetched Hen Hif Huniq.
  assert (Haddr : scanned_addresses client nodeName id = []).
  { unfold scanned_addresses.
    by destruct (GetVMNetworkInterfaces client nodeName id). }
  set (s := {| ID := id; Name := name; Config := GetTraefikMap config;
               IPs := [] |}) in *.
  assert (Hs : buildService client nodeName id name config = s)
    by by rewrite buildService_eq, Haddr.
  assert (Hin : in_snapshot servicesMap nodeName s).
  { apply (in_snapshot_getServiceMap client nodes); [done..|].
    split; [done|].
    destruct (scanServices client nodeName) as [services|e] eqn:Hscan.
    - exists services. split; [done|].
      apply (elem_of_scanServices client nodeName services s Hscan).
      exists config. split; [exact Hfetched|symmetry; exact Hs].
    - exfalso. assert (Herr : is_Err (scanServices client nodeName))
        by (rewrite Hscan; exact I).
      apply scanServices_Err in Herr. tauto. }
  assert (Hres : resolveServers nodeName s
                 = [ {| URL := "http://" ++ name ++ "." ++ nodeName ++ ":"
                          ++ default "80" (GetTraefikMap config
                               !! "traefik.http.services.port") |} ]).
  { rewrite resolveServers_fallback by done.
    by rewrite servicePort_default. }
  assert (Hem : emitted nodeName s).
  { split; [done|]. by rewrite Hres. }
  assert (Huniq' : ∀ n' s', in_snapshot servicesMap n' s' → ID s' = ID s →
                            n' = nodeName ∧ s' = s) by exact Huniq.
  destruct (generate_exact range date _ _ _ Hrange Hin Hem Huniq')
    as [Hv _].
  change (serviceName s) with (name ++ "-" ++ fmt_d id) in Hv.
  rewrite Hv. unfold backendOf. by rewrite Hres.
Qed.

Lemma X10_unreadable_interfaces_fallback_witness :
  is_Err (GetVMNetworkInterfaces sample_client "pve1" 200)
  ∧ Services (HTTP (generateConfiguration range_asc 0%Z snap_sample))
      !! "cache-200"
    = Some {| LoadBalancer := {| PassHostHeader := Some true;
         Servers := [ {| URL := "http://cache.pve1:80" |} ] |} |}.
Proof.
  assert (Hr : range_order range_asc snap_sample) by apply range_asc_order.
  assert (Hif : is_Err (GetVMNetworkInterfaces sample_client "pve1" 200))
    by exact I.
  split; [exact Hif|].
  refine (X10_unreadable_interfaces_fallback sample_client range_asc 0%Z _
            snap_sample "pve1" 200%N "cache"
            {| GetTraefikMap := Config cache200 |}
            eq_refl sample_getServiceMap Hr _ _ _ _ _ Hif _).
  - apply list_elem_of_here.
  - intros Herr. exact Herr.
  - intros Herr. exact Herr.
  - right. eexists _, {| ct_VMID := 200; ct_Name := "cache";
                         ct_Status := "running" |}.
    split; [reflexivity|]. split; [apply list_elem_of_here|].
    split_and!; reflexivity.
  - vm_compute. reflexivity.
  - intros n' s' [-> Hs']%in_snapshot_singleton Hid. split; [done|].
    apply elem_of_cons in Hs' as [->|Hs'].
    + vm_compute in Hid. discriminate Hid.
    + by apply list_elem_of_singleton in Hs'.
Defined.

(** * Further properties of construction *)

Lemma validateConfig_None c :
  validateConfig (Some c) = None
  ↔ PollInterval c ≠ "" ∧ ApiEndpoint c ≠ ""
    ∧ ApiTokenId c ≠ "" ∧ ApiToken c ≠ "".
Proof.
  rewrite <- !String.eqb_neq. simpl.
  destruct (String.eqb (PollInterval c) "");
    destruct (String.eqb (ApiEndpoint c) "");
    destruct (String.eqb (ApiTokenId c) "");
    destruct (String.eqb (ApiToken c) "");
    split; try done; intros (? & ? & ? & ?); done.
Qed.

Lemma newParserConfig_Ok apiEndpoint tokenID token :
  apiEndpoint ≠ "" → tokenID ≠ "" → token ≠ "" →
  newParserConfig apiEndpoint tokenID token
  = Ok {| pc_ApiEndpoint := apiEndpoint; pc_TokenId := tokenID;
          pc_Token := token; pc_LogLevel := "info";
          pc_ValidateSSL := true |}.
Proof.
  rewrite <- !String.eqb_neq. unfold newParserConfig.
  by intros -> -> ->.
Qed.

(** X13.  [New] returns a provider exactly when the configuration is not
    nil and passes [validateConfig], its poll interval parses to at least
    five seconds, and the version call of the client built from it
    succeeds.  The provider then has the given name, the parsed interval
    and that client, which is built from the endpoint, token ID and token,
    with the configured log level and with SSL validation on only when
    [ApiValidateSSL] is exactly the string ["true"]. *)
Theorem X13_New_accepts env config name p :
  New env config name = Ok p
  ↔ ∃ c pi,
      config = Some c
      ∧ validateConfig config = None
      ∧ ParseDuration env (PollInterval c) = Ok pi
      ∧ (5 * Second ≤ pi)%Z
      ∧ ¬ is_Err (GetVersion
                    (NewProxmoxClient env (ApiEndpoint c) (ApiTokenId c)
                       (ApiToken c) (String.eqb (ApiValidateSSL c) "true")
                       (ApiLogging c)))
      ∧ p = {| name := name; pollInterval := pi;
               client := NewProxmoxClient env (ApiEndpoint c) (ApiTokenId c)
                           (ApiToken c)
                           (String.eqb (ApiValidateSSL c) "true")
                           (ApiLogging c) |}.
Proof.
  unfold New.
  destruct (validateConfig config) as [err|] eqn:Hvalid.
  { split; [done|]. by intros (c & pi & _ & ? & _). }
  destruct config as [c|]; [|done].
  pose proof (proj1 (validateConfig_None c) Hvalid) as (_ & He & Hi & Ht).
  destruct (ParseDuration env (PollInterval c)) as [pi|err] eqn:Hparse.
  2: { split; [done|].
       intros (c' & pi & [= <-] & _ & ? & _). congruence. }
  destruct (pi <? 5 * Second)%Z eqn:Hlt.
  { apply Z.ltb_lt in Hlt. split; [done|].
    intros (c' & pi' & [= <-] & _ & Hpi & ? & _).
    assert (pi' = pi) by congruence. lia. }
  apply Z.ltb_ge in Hlt.
  rewrite (newParserConfig_Ok _ _ _ He Hi Ht).
  unfold newClient, logVersion. simpl.
  destruct (GetVersion _) as [version|err] eqn:Hversion.
  - split.
    + intros [= <-]. exists c, pi. rewrite Hversion.
      split_and!; try done. intros [].
    + intros (c' & pi' & [= <-] & _ & Hpi & _ & _ & ->).
      by assert (pi' = pi) as -> by congruence.
  - split; [done|].
    intros (c' & pi' & [= <-] & _ & _ & _ & Hok & _).
    rewrite Hversion in Hok. by destruct Hok.
Qed.

Lemma X13_New_accepts_witness :
  ∃ p, New sample_env (Some (config_with_interval "30s")) "proxmox" = Ok p
       ∧ pollInterval p = (30 * Second)%Z ∧ client p = sample_client.
Proof.
  exists {| name := "proxmox"; pollInterval := (30 * Second)%Z;
            client := sample_client |}.
  split; [|split; reflexivity].
  apply (X13_New_accepts sample_env (Some (config_with_interval "30s"))
           "proxmox").
  exists (config_with_interval "30s"), (30 * Second)%Z.
  split_and!; try reflexivity.
  - intros Hle. vm_compute in Hle. discriminate Hle.
  - intros Herr. exact Herr.
Defined.

(** X14.  [New] never fails with the parser-configuration error: the three
    values [newParserConfig] requires have been checked by [validateConfig]
    before it is called. *)
Theorem X14_New_no_parser_config_error env config name err :
  New env config name ≠ Err (fmt_Errorf_w "invalid parser config: %w" err).
Proof.
  unfold New.
  destruct (validateConfig config) as [e|] eqn:Hvalid;
    [intros Heq; discriminate Heq|].
  destruct config as [c|]; [|done].
  apply validateConfig_None in Hvalid as (_ & He & Hi & Ht).
  destruct (ParseDuration env (PollInterval c)) as [pi|e];
    [|intros Heq; discriminate Heq].
  destruct (pi <? 5 * Second)%Z; [done|].
  rewrite (newParserConfig_Ok _ _ _ He Hi Ht).
  destruct (logVersion _); [intros Heq; discriminate Heq|done].
Qed.

(** X15.  The default configuration is not enough on its own: [New]
    refuses [CreateConfig()] for its missing API endpoint.  Once the
    endpoint, the token ID and the token are set to non-empty values it
    passes [validateConfig], and when its poll interval ["30s"] parses to
    at least five seconds and the version call succeeds, [New] returns a
    provider whose client was built with log level ["info"] and SSL
    validation on. *)
Theorem X15_default_configuration env name apiEndpoint apiTokenId apiToken pi :
  apiEndpoint ≠ "" → apiTokenId ≠ "" → apiToken ≠ "" →
  ParseDuration env "30s" = Ok pi → (5 * Second ≤ pi)%Z →
  ¬ is_Err (GetVersion (NewProxmoxClient env apiEndpoint apiTokenId apiToken
                          true "info")) →
  New env (Some CreateConfig) name
  = Err (fmt_Errorf_w "invalid configuration: %w"
           (errors_New "API endpoint must be set"))
  ∧ New env (Some (withCredentials CreateConfig apiEndpoint apiTokenId
                     apiToken)) name
    = Ok {| name := name; pollInterval := pi;
            client := NewProxmoxClient env apiEndpoint apiTokenId apiToken
                        true "info" |}.
Proof.
  intros He Hi Ht Hparse Hpi Hversion. split; [done|].
  unfold New.
  assert (Hvalid : validateConfig
                     (Some (withCredentials CreateConfig apiEndpoint
                              apiTokenId apiToken)) = None).
  { apply validateConfig_None. by split_and!. }
  rewrite Hvalid. simpl. rewrite Hparse.
  apply Z.ltb_ge in Hpi. rewrite Hpi.
  rewrite (newParserConfig_Ok _ _ _ He Hi Ht).
  unfold newClient, logVersion. simpl.
  by destruct (GetVersion _).
Qed.

Lemma X15_default_configuration_witness :
  New sample_env
    (Some (withCredentials CreateConfig "https://proxmox.example.com"
             "root@pam!traefik" "your-api-token")) "proxmox"
  = Ok {| name := "proxmox"; pollInterval := (30 * Second)%Z;
          client := sample_client |}.
Proof.
  refine (proj2 (X15_default_configuration sample_env "proxmox"
                   "https://proxmox.example.com" "root@pam!traefik"
                   "your-api-token" (30 * Second)%Z _ _ _ eq_refl _ _)).
  - discriminate.
  - discriminate.
  - discriminate.
  - intros Hle. vm_compute in Hle. discriminate Hle.
  - intros Herr. exact Herr.
Defined.


(** * The poll loop *)



(** X16.  Once a [select] of the poll loop takes the cancellation case the
    loop returns: the cases that would follow are not run, and nothing is
    sent on the channel after it. *)
Theorem X16_loop_returns_on_done p initial before after cfgChan :
  loadConfiguration p initial (before ++ CtxDone :: after) cfgChan
  = loadConfiguration p initial before cfgChan.
Proof.
  unfold loadConfiguration.
  generalize (runCycle p initial cfgChan). clear cfgChan.
  induction before as [|[cycle|] before IH]; intros cfgChan; simpl;
    [done|apply IH|done].
Qed.


Example sample_loop :
  length (loadConfiguration (sample_provider sample_client)
            (sample_cycle offline_client)
            [ TickerC (sample_cycle sample_client);
              TickerC (sample_cycle offline_client);
              TickerC (sample_cycle sample_client);
              CtxDone;
              TickerC (sample_cycle sample_client) ] [])
  = 2.
Proof. vm_compute. reflexivity. Qed.


(** * Directives that synthesis does not read *)

Lemma same_routing_input_step nodeName c s1 s2 :
  same_routing_input s1 s2 →
  processService nodeName c s1 = processService nodeName c s2.
Proof.
  intros (Hid & Hname & Hips & Hen & Hport & Hrule).
  unfold processService, serviceName, routerRule, resolveServers,
    addIPServer, servicePort, map_index.
  by rewrite Hid, Hname, Hips, Hen, Hport, Hrule.
Qed.

(** X18.  Synthesis reads three directives only: the enable flag, the port
    and the rule.  Replacing the services of a node by services with the
    same IDs, names and addresses whose directive maps agree on these three
    keys, whatever else they hold, leaves the result of processing the
    node unchanged; in particular no priority or entry-point directive has
    any effect. *)
Theorem X18_other_directives_ignored c nodeName services1 services2 :
  Forall2 same_routing_input services1 services2 →
  processNode c (nodeName, services1) = processNode c (nodeName, services2).
Proof.
  unfold processNode. simpl. intros Hsame. revert c.
  induction Hsame as [|s1 s2 l1 l2 Hs _ IH]; intros c; simpl; [done|].
  by rewrite (same_routing_input_step nodeName c s1 s2 Hs).
Qed.

Lemma X18_other_directives_ignored_witness :
  Forall2 same_routing_input [web100_extra] [web100]
  ∧ processNode emptyConfiguration ("pve1", [web100_extra])
    = processNode emptyConfiguration ("pve1", [web100]).
Proof.
  assert (Hsame : Forall2 same_routing_input [web100_extra] [web100]).
  { repeat constructor; vm_compute; reflexivity. }
  split; [exact Hsame|].
  exact (X18_other_directives_ignored emptyConfiguration "pve1" _ _ Hsame).
Defined.
